(** * The codespaces proxy of github-mcp-server: routes, token extraction,
      scope gate and response forwarding, embedded from the Go sources.

    Go strings are byte strings; they are modelled by [string] (a list of
    [ascii] bytes).  Maps with string keys ([http.Header], the [have] map
    of [ensureScopes]) are stdpp [gmap]s.  The upstream is a function from
    requests to exchanges, and a handler is a computation over the list of
    the requests it has issued. *)

From Stdlib Require Import ZArith Ascii String List Lia Bool.
From stdpp Require Import base option list gmap strings.

Local Open Scope string_scope.
Local Open Scope Z_scope.

(** ** The functions of Go's [strings] and [bytes] packages that the proxy
       calls.  The character classes are those of the ASCII range.  Go also
       takes the white space outside it (U+0085, U+00A0 and the other
       Unicode spaces) for white space in [Fields] and [TrimSpace], and
       [ToLower] also folds the letters outside it; the byte-level model
       leaves those bytes alone, and what is stated of particular strings
       is stated of ASCII strings. *)
Module strings.

Definition len (s : string) : nat := String.length s.

(** [s[i:j]] for [i <= j <= len s]. *)
Definition sub (s : string) (i j : nat) : string := substring i (j - i) s.

Definition HasPrefix (s prefix : string) : bool :=
  (len prefix <=? len s)%nat && String.eqb (sub s 0 (len prefix)) prefix.

Definition HasSuffix (s suffix : string) : bool :=
  (len suffix <=? len s)%nat
  && String.eqb (sub s (len s - len suffix) (len s)) suffix.

Definition TrimPrefix (s prefix : string) : string :=
  if HasPrefix s prefix then sub s (len prefix) (len s) else s.

Definition TrimSuffix (s suffix : string) : string :=
  if HasSuffix s suffix then sub s 0 (len s - len suffix) else s.

(** The ASCII white space of [unicode.IsSpace]: tab, line feed, vertical
    tab, form feed, carriage return and space. *)
Definition isSpace (c : ascii) : bool :=
  let n := nat_of_ascii c in
  ((9 <=? n) && (n <=? 13))%nat || (n =? 32)%nat.

Definition toLower (c : ascii) : ascii :=
  let n := nat_of_ascii c in
  if ((65 <=? n) && (n <=? 90))%nat then ascii_of_nat (n + 32) else c.

Fixpoint ToLower (s : string) : string :=
  match s with
  | EmptyString => EmptyString
  | String c s' => String (toLower c) (ToLower s')
  end.

Fixpoint TrimLeft (s : string) : string :=
  match s with
  | EmptyString => EmptyString
  | String c s' => if isSpace c then TrimLeft s' else s
  end.

(** [TrimRight] drops the white space that ends [s]: a space is kept only
    when something that is kept follows it. *)
Fixpoint TrimRight (s : string) : string :=
  match s with
  | EmptyString => EmptyString
  | String c s' =>
      match TrimRight s' with
      | EmptyString => if isSpace c then EmptyString else String c EmptyString
      | t => String c t
      end
  end.

Definition TrimSpace (s : string) : string := TrimRight (TrimLeft s).

(** [fieldsFrom cur s]: the fields of [s], where [cur] is the part of the
    current field already read. *)
Fixpoint fieldsFrom (cur s : string) : list string :=
  match s with
  | EmptyString => if String.eqb cur "" then [] else [cur]
  | String c s' =>
      if isSpace c
      then (if String.eqb cur "" then fieldsFrom "" s'
            else cur :: fieldsFrom "" s')
      else fieldsFrom (cur +:+ String c "") s'
  end.

(** [strings.Fields]: the maximal runs of non-space bytes, in order. *)
Definition Fields (s : string) : list string := fieldsFrom "" s.

(** [splitFrom sep cur s]: the pieces of [s] between occurrences of the
    byte [sep]; [cur] is the piece being read. *)
Fixpoint splitFrom (sep : ascii) (cur s : string) : list string :=
  match s with
  | EmptyString => [cur]
  | String c s' =>
      if Ascii.eqb c sep then cur :: splitFrom sep "" s'
      else splitFrom sep (cur +:+ String c "") s'
  end.

(** [bytes.Split(s, sep)] for a one-byte separator: always at least one
    piece, empty pieces are kept. *)
Definition Split (s : string) (sep : ascii) : list string := splitFrom sep "" s.

End strings.

(** ** Go slices: a slice is [nil] or holds elements; [[]string{}] is the second
       with no element. *)
Inductive slice (A : Type) : Type :=
| nil_slice
| Slice (elems : list A).
Arguments nil_slice {A}.
Arguments Slice {A} elems.

Definition elems {A} (s : slice A) : list A :=
  match s with nil_slice => [] | Slice l => l end.

Definition append {A} (s : slice A) (x : A) : slice A := Slice (elems s ++ [x]).

(** ** What running Go code ends in: a value, or a run-time panic. *)
Inductive outcome (A : Type) : Type :=
| Done (a : A)
| Panicked.
Arguments Done {A} a.
Arguments Panicked {A}.

(** ** [net/http]: headers, requests, and a response writer that records what
       a handler writes. *)
Module http.

Definition StatusBadRequest : Z := 400.
Definition StatusUnauthorized : Z := 401.
Definition StatusForbidden : Z := 403.
Definition StatusMethodNotAllowed : Z := 405.
Definition StatusInternalServerError : Z := 500.
Definition StatusBadGateway : Z := 502.

Definition MethodGet : string := "GET".
Definition MethodPost : string := "POST".
Definition MethodDelete : string := "DELETE".

(** [textproto]'s token bytes: letters, digits and [!#$%&'*+-.^_`|~]. *)
Definition validHeaderFieldByte (c : ascii) : bool :=
  let n := nat_of_ascii c in
  (((48 <=? n) && (n <=? 57)) || ((65 <=? n) && (n <=? 90))
   || ((97 <=? n) && (n <=? 122))
   || existsb (Nat.eqb n) [33; 35; 36; 37; 38; 39; 42; 43; 45; 46; 94; 95; 96; 124; 126])%nat.

Fixpoint allBytes (p : ascii -> bool) (s : string) : bool :=
  match s with
  | EmptyString => true
  | String c s' => p c && allBytes p s'
  end.

Definition toUpper (c : ascii) : ascii :=
  let n := nat_of_ascii c in
  if ((97 <=? n) && (n <=? 122))%nat then ascii_of_nat (n - 32) else c.

Fixpoint canonical (upper : bool) (s : string) : string :=
  match s with
  | EmptyString => EmptyString
  | String c s' =>
      let c' := if upper then toUpper c else strings.toLower c in
      String c' (canonical (Ascii.eqb c' "-") s')
  end.

(** [textproto.CanonicalMIMEHeaderKey]: a key made of token bytes gets an
    upper-case letter at its start and after each hyphen and lower-case
    letters elsewhere; any other key is returned as it is. *)
Definition CanonicalMIMEHeaderKey (s : string) : string :=
  if allBytes validHeaderFieldByte s then canonical true s else s.

Abbreviation Header := (gmap string (list string)).

Definition Get (h : Header) (key : string) : string :=
  match h !! CanonicalMIMEHeaderKey key with
  | Some (v :: _) => v
  | _ => ""
  end.

Definition Set_ (h : Header) (key value : string) : Header :=
  <[CanonicalMIMEHeaderKey key := [value]]> h.

Definition Del (h : Header) (key : string) : Header :=
  delete (CanonicalMIMEHeaderKey key) h.

(** A body to read with [io.ReadAll]: its bytes, or a read that fails. *)
Inductive reader : Type :=
| NoBody
| Bytes (bs : string)
| Broken (e : string).

Definition ReadAll (b : reader) : string + string :=
  match b with
  | NoBody => inl ""
  | Bytes bs => inl bs
  | Broken e => inr e
  end.

(** [http.Request], for the inbound requests ([URL] holds the path) and for
    the requests sent upstream ([URL] is the whole address). *)
Record Request : Type := mkRequest {
  Method : string;
  URL : string;
  Hdr : Header;
  Body : reader
}.

(** What a handler did to its [http.ResponseWriter]: the header map, the
    status of the first [WriteHeader], and the bytes written. *)
Record ResponseWriter : Type := mkWriter {
  WHeader : Header;
  Code : option Z;
  Written : string
}.

Definition NewRecorder : ResponseWriter :=
  {| WHeader := ∅; Code := None; Written := "" |}.

Definition SetHeader (w : ResponseWriter) (key value : string) : ResponseWriter :=
  {| WHeader := Set_ (WHeader w) key value; Code := Code w; Written := Written w |}.

Definition DelHeader (w : ResponseWriter) (key : string) : ResponseWriter :=
  {| WHeader := Del (WHeader w) key; Code := Code w; Written := Written w |}.

(** The first status given to the writer is the status of the response. *)
Definition setStatus (w : ResponseWriter) (status : Z) : ResponseWriter :=
  match Code w with
  | Some _ => w
  | None => {| WHeader := WHeader w; Code := Some status; Written := Written w |}
  end.

(** [checkWriteHeaderCode] lets the codes of three digits through. *)
Definition checkWriteHeaderCode (code : Z) : bool := (100 <=? code) && (code <=? 999).

(** [WriteHeader] does nothing when a status was written before;
    otherwise it panics on a code below 100 or above 999 and records any
    other.  (The recorder does not tell the informational codes 100 to 199
    from the others, nor does it drop the body that goes with 204 or
    304.) *)
Definition WriteHeader (w : ResponseWriter) (code : Z) : outcome ResponseWriter :=
  match Code w with
  | Some _ => Done w
  | None => if checkWriteHeaderCode code then Done (setStatus w code) else Panicked
  end.

(** [Write] sends status 200 first when no status was written. *)
Definition Write (w : ResponseWriter) (bs : string) : ResponseWriter :=
  let w' := setStatus w 200 in
  {| WHeader := WHeader w'; Code := Code w'; Written := Written w' +:+ bs |}.

(** [http.Error]: a plain-text reply with the given status, the message
    followed by a line feed.  The handlers pass it the status constants
    above, which [WriteHeader] accepts. *)
Definition Error (w : ResponseWriter) (error : string) (code : Z) : ResponseWriter :=
  let w := DelHeader w "Content-Length" in
  let w := SetHeader w "Content-Type" "text/plain; charset=utf-8" in
  let w := SetHeader w "X-Content-Type-Options" "nosniff" in
  let w := setStatus w code in
  Write w (error +:+ String (ascii_of_nat 10) "").

End http.

(** ** [encoding/json], as far as the proxy uses it: decoding the inbound
       body into an [interface{}] and encoding that value again.  The codec
       is a parameter of the development.  A decoded [interface{}] is
       [None] for Go's [nil] (what the text [null] decodes to). *)
Record Codec : Type := mkCodec {
  value : Type;
  Unmarshal : string -> option (option value);   (* [None]: the text is rejected *)
  Marshal : value -> option string               (* [None]: the value cannot be encoded *)
}.

(** ** Go's [error] values that occur in the proxy. *)
Inductive error : Type :=
| TransportError (e : string)          (* from [HTTPClient.Do] or from reading the body *)
| StatusError (status : Z)             (* "github returned status %d" *)
| MarshalError                         (* "marshal body: ..." *)
| InsufficientScopeError (Required Granted : slice string).

(** ** Computations that call the upstream.  The state is the list of the
       requests handed to [HTTPClient.Do] so far, oldest first; a
       computation ends with a value or in a run-time panic. *)
Definition M (A : Type) : Type := list http.Request -> outcome A * list http.Request.

Definition ret {A} (a : A) : M A := fun calls => (Done a, calls).

Definition bind {A B} (m : M A) (k : A -> M B) : M B :=
  fun calls =>
    match m calls with
    | (Done a, calls') => k a calls'
    | (Panicked, calls') => (Panicked, calls')
    end.

Notation "'call' x <- m 'in' k" := (bind m (fun x => k))
  (at level 10, x pattern, m at level 100, k at level 200, only parsing).

(** ** [pkg/github/codespaces_client.go] *)
Module github.

(** What happens to one request given to [HTTPClient.Do] and to the reading
    of the response body that follows. *)
Inductive Exchange : Type :=
| DoFails (e : string)
| ReadFails (status : Z) (hdr : http.Header) (e : string)
| Responds (status : Z) (hdr : http.Header) (body : string).

(** [HTTPClient] answers a request, possibly depending on the requests it
    was given before. *)
Record CodespacesClient : Type := mkClient {
  HTTPClient : list http.Request -> http.Request -> Exchange;
  BaseURL : string;
  UserAgent : string
}.

Definition NewCodespacesClient
    (httpClient : list http.Request -> http.Request -> Exchange) : CodespacesClient :=
  {| HTTPClient := httpClient;
     BaseURL := "https://api.github.com";
     UserAgent := "github-mcp-server/codespaces-client" |}.

Definition hexDigit (n : nat) : ascii :=
  match get n "0123456789ABCDEF" with Some c => c | None => "0"%char end.

(** [url.PathEscape] leaves letters, digits and [-_.~$&+:=@] alone. *)
Definition shouldEscape (c : ascii) : bool :=
  let n := nat_of_ascii c in
  negb (((48 <=? n) && (n <=? 57)) || ((65 <=? n) && (n <=? 90))
        || ((97 <=? n) && (n <=? 122))
        || existsb (Nat.eqb n) [45; 95; 46; 126; 36; 38; 43; 58; 61; 64])%nat.

Fixpoint PathEscape (s : string) : string :=
  match s with
  | EmptyString => EmptyString
  | String c s' =>
      let n := nat_of_ascii c in
      if shouldEscape c
      then String "%" (String (hexDigit (n / 16)) (String (hexDigit (n mod 16)) (PathEscape s')))
      else String c (PathEscape s')
  end.

Section Client.
Context (json : Codec).
Variable c : CodespacesClient.

(** The request is addressed to [BaseURL] followed by [path].  This is the
    address that resolving [path] against a base address without path and
    printing it gives when [path] has no dot segment and no byte that
    [url.URL.String] escapes (a percent sign is one); the resolution and
    the second escaping are not modelled. *)
Definition newRequest (method path token : string) (body : option (value json))
    : error + http.Request :=
  match (match body with
         | Some v => match Marshal json v with
                     | Some bs => inr (http.Bytes bs)
                     | None => inl MarshalError
                     end
         | None => inr http.NoBody
         end) with
  | inl e => inl e
  | inr buf =>
      let h : http.Header := ∅ in
      let h := http.Set_ h "Accept" "application/vnd.github+json;apiVersion=2022-11-28" in
      let h := http.Set_ h "User-Agent" (UserAgent c) in
      let h := match body with
               | Some _ => http.Set_ h "Content-Type" "application/json"
               | None => h
               end in
      let h := if String.eqb token "" then h
               else http.Set_ h "Authorization" ("token " +:+ token) in
      inr {| http.Method := method; http.URL := BaseURL c +:+ path;
             http.Hdr := h; http.Body := buf |}
  end.

(** [doRaw]: status, header, body bytes and error, in this order.  The
    request is recorded as issued whatever its fate. *)
Definition doRaw (req : http.Request) : M (Z * http.Header * string * option error) :=
  fun calls =>
    (Done match HTTPClient c calls req with
          | DoFails e => (0, ∅, "", Some (TransportError e))
          | ReadFails status hdr e => (status, hdr, "", Some (TransportError e))
          | Responds status hdr bs => (status, hdr, bs, None)
          end,
     (calls ++ [req])%list).

Definition GetTokenScopes (token : string) : M (slice string * option error) :=
  match newRequest "GET" "/" token None with
  | inl err => ret (nil_slice, Some err)
  | inr req =>
      call (status, hdr, _, err) <- doRaw req in
      match err with
      | Some e => ret (nil_slice, Some e)
      | None =>
          if status >=? 400 then ret (nil_slice, Some (StatusError status))
          else
            let raw := http.Get hdr "X-OAuth-Scopes" in
            if String.eqb raw "" then ret (Slice [], None)
            else
              ret (fold_left (fun scopes s => append scopes (strings.TrimSpace s))
                             (strings.Split raw ",") nil_slice,
                   None)
      end
  end.

(** The six operations declare their results as status, body, header,
    error: the body and the header of [doRaw] change places. *)
Definition send (r : error + http.Request) : M (Z * string * http.Header * option error) :=
  match r with
  | inl err => ret (0, "", ∅, Some err)
  | inr req =>
      call (status, hdr, bs, err) <- doRaw req in
      ret (status, bs, hdr, err)
  end.

Definition ListCodespaces (token : string) :=
  send (newRequest "GET" "/user/codespaces" token None).

Definition GetCodespace (token name : string) :=
  let path := "/user/codespaces/" +:+ PathEscape name in
  send (newRequest "GET" path token None).

Definition CreateCodespace (token : string) (body : option (value json)) :=
  send (newRequest "POST" "/user/codespaces" token body).

Definition StartCodespace (token name : string) :=
  let path := "/user/codespaces/" +:+ PathEscape name +:+ "/start" in
  send (newRequest "POST" path token None).

Definition StopCodespace (token name : string) :=
  let path := "/user/codespaces/" +:+ PathEscape name +:+ "/stop" in
  send (newRequest "POST" path token None).

Definition DeleteCodespace (token name : string) :=
  let path := "/user/codespaces/" +:+ PathEscape name in
  send (newRequest "DELETE" path token None).

End Client.
End github.

(** ** The routes and handlers of package [ghmcp] *)
Module ghmcp.

Definition lift {A} (o : outcome A) : M A := fun calls => (o, calls).

(** [extractToken].  [parts[1]] is out of range when the header holds no
    field at all: Go panics there. *)
Definition extractToken (r : http.Request) : outcome string :=
  let auth := http.Get (http.Hdr r) "Authorization" in
  let auth := if String.eqb auth "" then http.Get (http.Hdr r) "X-Github-Token" else auth in
  if String.eqb auth "" then Done ""
  else
    let parts := strings.Fields auth in
    if (length parts =? 1)%nat
    then match parts !! 0%nat with Some p => Done p | None => Panicked end
    else match parts !! 1%nat with Some p => Done p | None => Panicked end.

(** [writeProxyResponse].  The status is the upstream's, unchecked: a
    status that [WriteHeader] refuses makes the handler panic. *)
Definition writeProxyResponse (w : http.ResponseWriter) (status : Z)
    (hdr : http.Header) (body : string) : outcome http.ResponseWriter :=
  let w := let ct := http.Get hdr "Content-Type" in
           if negb (String.eqb ct "") then http.SetHeader w "Content-Type" ct
           else http.SetHeader w "Content-Type" "application/json" in
  match http.WriteHeader w status with
  | Panicked => Panicked
  | Done w => Done (if (0 <? strings.len body)%nat then http.Write w body else w)
  end.

(** The [have] map of [ensureScopes] maps a key to [true] or does not hold
    it; reading a missing key gives [false]. *)
Definition index (have : gmap string bool) (k : string) : bool :=
  default false (have !! k).

(** What [ensureScopes] does with the scopes it fetched: fill [have], then
    look every required scope up in it. *)
Definition checkScopes (scopes required : slice string) : option error :=
  let have : gmap string bool :=
    fold_left (fun have s => <[strings.ToLower (strings.TrimSpace s) := true]> have)
              (elems scopes) ∅ in
  if existsb (fun r => negb (index have (strings.ToLower r))) (elems required)
  then Some (InsufficientScopeError required scopes)
  else None.

Section Handlers.
Context (json : Codec).
Variable client : github.CodespacesClient.

Definition ensureScopes (token : string) (required : slice string) : M (option error) :=
  call (scopes, err) <- github.GetTokenScopes json client token in
  match err with
  | Some e => ret (Some e)
  | None => ret (checkScopes scopes required)
  end.

Definition handleListCodespaces (w : http.ResponseWriter) (r : http.Request)
    : M http.ResponseWriter :=
  call token <- lift (extractToken r) in
  if String.eqb token "" then
    ret (http.Error w "missing Authorization token" http.StatusUnauthorized)
  else
  call err <- ensureScopes token (Slice ["codespaces"]) in
  match err with
  | Some (InsufficientScopeError _ _) =>
      ret (http.Error w "insufficient token scopes: requires codespaces" http.StatusForbidden)
  | Some _ =>
      ret (http.Error w "failed to validate token scopes" http.StatusInternalServerError)
  | None =>
      call (status, body, hdr, err) <- github.ListCodespaces json client token in
      match err with
      | Some _ => ret (http.Error w "failed to call GitHub" http.StatusBadGateway)
      | None => lift (writeProxyResponse w status hdr body)
      end
  end.

Definition handleGetCodespace (w : http.ResponseWriter) (r : http.Request)
    (name : string) : M http.ResponseWriter :=
  call token <- lift (extractToken r) in
  if String.eqb token "" then
    ret (http.Error w "missing Authorization token" http.StatusUnauthorized)
  else
  call err <- ensureScopes token (Slice ["codespaces"]) in
  match err with
  | Some (InsufficientScopeError _ _) =>
      ret (http.Error w "insufficient token scopes: requires codespaces" http.StatusForbidden)
  | Some _ =>
      ret (http.Error w "failed to validate token scopes" http.StatusInternalServerError)
  | None =>
      call (status, body, hdr, err) <- github.GetCodespace json client token name in
      match err with
      | Some _ => ret (http.Error w "failed to call GitHub" http.StatusBadGateway)
      | None => lift (writeProxyResponse w status hdr body)
      end
  end.

Definition handleCreateCodespace (w : http.ResponseWriter) (r : http.Request)
    : M http.ResponseWriter :=
  call token <- lift (extractToken r) in
  if String.eqb token "" then
    ret (http.Error w "missing Authorization token" http.StatusUnauthorized)
  else
  call err <- ensureScopes token (Slice ["codespaces"]) in
  match err with
  | Some (InsufficientScopeError _ _) =>
      ret (http.Error w "insufficient token scopes: requires codespaces" http.StatusForbidden)
  | Some _ =>
      ret (http.Error w "failed to validate token scopes" http.StatusInternalServerError)
  | None =>
      match http.ReadAll (http.Body r) with
      | inr _ => ret (http.Error w "invalid request body" http.StatusBadRequest)
      | inl bs =>
          match (if (0 <? strings.len bs)%nat then Unmarshal json bs else Some None) with
          | None => ret (http.Error w "invalid json body" http.StatusBadRequest)
          | Some body =>
              call (status, respBody, hdr, err) <-
                github.CreateCodespace json client token body in
              match err with
              | Some _ => ret (http.Error w "failed to call GitHub" http.StatusBadGateway)
              | None => lift (writeProxyResponse w status hdr respBody)
              end
          end
      end
  end.

Definition handleStartCodespace (w : http.ResponseWriter) (r : http.Request)
    (name : string) : M http.ResponseWriter :=
  call token <- lift (extractToken r) in
  if String.eqb token "" then
    ret (http.Error w "missing Authorization token" http.StatusUnauthorized)
  else
  call err <- ensureScopes token (Slice ["codespaces"]) in
  match err with
  | Some (InsufficientScopeError _ _) =>
      ret (http.Error w "insufficient token scopes: requires codespaces" http.StatusForbidden)
  | Some _ =>
      ret (http.Error w "failed to validate token scopes" http.StatusInternalServerError)
  | None =>
      call (status, body, hdr, err) <- github.StartCodespace json client token name in
      match err with
      | Some _ => ret (http.Error w "failed to call GitHub" http.StatusBadGateway)
      | None => lift (writeProxyResponse w status hdr body)
      end
  end.

Definition handleStopCodespace (w : http.ResponseWriter) (r : http.Request)
    (name : string) : M http.ResponseWriter :=
  call token <- lift (extractToken r) in
  if String.eqb token "" then
    ret (http.Error w "missing Authorization token" http.StatusUnauthorized)
  else
  call err <- ensureScopes token (Slice ["codespaces"]) in
  match err with
  | Some (InsufficientScopeError _ _) =>
      ret (http.Error w "insufficient token scopes: requires codespaces" http.StatusForbidden)
  | Some _ =>
      ret (http.Error w "failed to validate token scopes" http.StatusInternalServerError)
  | None =>
      call (status, body, hdr, err) <- github.StopCodespace json client token name in
      match err with
      | Some _ => ret (http.Error w "failed to call GitHub" http.StatusBadGateway)
      | None => lift (writeProxyResponse w status hdr body)
      end
  end.

Definition handleDeleteCodespace (w : http.ResponseWriter) (r : http.Request)
    (name : string) : M http.ResponseWriter :=
  call token <- lift (extractToken r) in
  if String.eqb token "" then
    ret (http.Error w "missing Authorization token" http.StatusUnauthorized)
  else
  call err <- ensureScopes token (Slice ["codespaces"]) in
  match err with
  | Some (InsufficientScopeError _ _) =>
      ret (http.Error w "insufficient token scopes: requires codespaces" http.StatusForbidden)
  | Some _ =>
      ret (http.Error w "failed to validate token scopes" http.StatusInternalServerError)
  | None =>
      call (status, body, hdr, err) <- github.DeleteCodespace json client token name in
      match err with
      | Some _ => ret (http.Error w "failed to call GitHub" http.StatusBadGateway)
      | None => lift (writeProxyResponse w status hdr body)
      end
  end.

(** The two closures that [RegisterCodespacesRoutes] hands to the mux. *)
Definition collectionHandler (w : http.ResponseWriter) (r : http.Request)
    : M http.ResponseWriter :=
  if String.eqb (http.Method r) http.MethodGet then handleListCodespaces w r
  else if String.eqb (http.Method r) http.MethodPost then handleCreateCodespace w r
  else ret (http.Error w "method not allowed" http.StatusMethodNotAllowed).

Definition resourceHandler (w : http.ResponseWriter) (r : http.Request)
    : M http.ResponseWriter :=
  let rest := strings.TrimPrefix (http.URL r) "/api/codespaces/" in
  if String.eqb rest "" then
    ret (http.Error w "missing codespace name" http.StatusBadRequest)
  else if strings.HasSuffix rest "/start" && String.eqb (http.Method r) http.MethodPost then
    let name := strings.TrimSuffix rest "/start" in
    handleStartCodespace w r name
  else if strings.HasSuffix rest "/stop" && String.eqb (http.Method r) http.MethodPost then
    let name := strings.TrimSuffix rest "/stop" in
    handleStopCodespace w r name
  else if String.eqb (http.Method r) http.MethodGet then handleGetCodespace w r rest
  else if String.eqb (http.Method r) http.MethodDelete then handleDeleteCodespace w r rest
  else ret (http.Error w "method not allowed" http.StatusMethodNotAllowed).

(** The mux as the list of its patterns with their handlers. *)
Definition ServeMux : Type :=
  list (string * (http.ResponseWriter -> http.Request -> M http.ResponseWriter)).

Definition RegisterCodespacesRoutes (mux : ServeMux) : ServeMux :=
  (mux ++ [("/api/codespaces", collectionHandler);
           ("/api/codespaces/", resourceHandler)])%list.

End Handlers.

(** ** What a closure decides before a handler runs: the action with its
       resource name, or a refusal. *)
Inductive Action : Type :=
| List
| Create
| Get (name : string)
| Delete (name : string)
| Start (name : string)
| Stop (name : string).

Inductive Resolution : Type :=
| Dispatch (a : Action)
| Reject (msg : string) (code : Z).

Definition collectionRoute (method : string) : Resolution :=
  if String.eqb method http.MethodGet then Dispatch List
  else if String.eqb method http.MethodPost then Dispatch Create
  else Reject "method not allowed" http.StatusMethodNotAllowed.

Definition resourceRoute (path method : string) : Resolution :=
  let rest := strings.TrimPrefix path "/api/codespaces/" in
  if String.eqb rest "" then Reject "missing codespace name" http.StatusBadRequest
  else if strings.HasSuffix rest "/start" && String.eqb method http.MethodPost then
    Dispatch (Start (strings.TrimSuffix rest "/start"))
  else if strings.HasSuffix rest "/stop" && String.eqb method http.MethodPost then
    Dispatch (Stop (strings.TrimSuffix rest "/stop"))
  else if String.eqb method http.MethodGet then Dispatch (Get rest)
  else if String.eqb method http.MethodDelete then Dispatch (Delete rest)
  else Reject "method not allowed" http.StatusMethodNotAllowed.

Section Serve.
Context (json : Codec).
Variable client : github.CodespacesClient.

Definition perform (a : Action) (w : http.ResponseWriter) (r : http.Request)
    : M http.ResponseWriter :=
  match a with
  | List => handleListCodespaces json client w r
  | Create => handleCreateCodespace json client w r
  | Get name => handleGetCodespace json client w r name
  | Delete name => handleDeleteCodespace json client w r name
  | Start name => handleStartCodespace json client w r name
  | Stop name => handleStopCodespace json client w r name
  end.

(** The request that the client operation of an action builds. *)
Definition actionRequest (a : Action) (token : string) (body : option (value json))
    : error + http.Request :=
  match a with
  | List => github.newRequest json client "GET" "/user/codespaces" token None
  | Create => github.newRequest json client "POST" "/user/codespaces" token body
  | Get name =>
      github.newRequest json client "GET"
        ("/user/codespaces/" +:+ github.PathEscape name) token None
  | Delete name =>
      github.newRequest json client "DELETE"
        ("/user/codespaces/" +:+ github.PathEscape name) token None
  | Start name =>
      github.newRequest json client "POST"
        ("/user/codespaces/" +:+ github.PathEscape name +:+ "/start") token None
  | Stop name =>
      github.newRequest json client "POST"
        ("/user/codespaces/" +:+ github.PathEscape name +:+ "/stop") token None
  end.


(** The body that an action sends upstream: the decoded inbound body for
    [Create] ([None] when it cannot be read or decoded), none otherwise. *)
Definition actionBody (a : Action) (r : http.Request) : option (option (value json)) :=
  match a with
  | Create =>
      match http.ReadAll (http.Body r) with
      | inr _ => None
      | inl bs => if (0 <? strings.len bs)%nat then Unmarshal json bs else Some None
      end
  | _ => Some None
  end.

(** The shape that the six handlers share: token, scope gate, inbound body
    (of [Create] only), upstream call, reply. *)
Definition guarded (a : Action) (w : http.ResponseWriter) (r : http.Request)
    : M http.ResponseWriter :=
  call token <- lift (extractToken r) in
  if String.eqb token "" then
    ret (http.Error w "missing Authorization token" http.StatusUnauthorized)
  else
  call err <- ensureScopes json client token (Slice ["codespaces"]) in
  match err with
  | Some (InsufficientScopeError _ _) =>
      ret (http.Error w "insufficient token scopes: requires codespaces" http.StatusForbidden)
  | Some _ =>
      ret (http.Error w "failed to validate token scopes" http.StatusInternalServerError)
  | None =>
      match actionBody a r with
      | None =>
          ret (http.Error w
                 match http.ReadAll (http.Body r) with
                 | inr _ => "invalid request body"
                 | inl _ => "invalid json body"
                 end
                 http.StatusBadRequest)
      | Some body =>
          call (status, respBody, hdr, err) <-
            github.send client (actionRequest a token body) in
          match err with
          | Some _ => ret (http.Error w "failed to call GitHub" http.StatusBadGateway)
          | None => lift (writeProxyResponse w status hdr respBody)
          end
      end
  end.

Definition serve (res : Resolution) (w : http.ResponseWriter) (r : http.Request)
    : M http.ResponseWriter :=
  match res with
  | Dispatch a => perform a w r
  | Reject msg code => ret (http.Error w msg code)
  end.

End Serve.
End ghmcp.

(** ** A reader and printer of JSON texts, to run the handlers on concrete
       bodies.  String literals keep their escapes and numbers their
       digits. *)
Module jsontext.

#[warnings="-register-all"]
Inductive tree : Type :=
| Null
| Bool (b : bool)
| Number (digits : string)
| Str (raw : string)
| Array (items : list tree)
| Object (members : list (string * tree)).

Definition isWS (c : ascii) : bool :=
  existsb (Nat.eqb (nat_of_ascii c)) [32; 9; 10; 13]%nat.

Fixpoint skip (s : string) : string :=
  match s with
  | String c s' => if isWS c then skip s' else s
  | EmptyString => s
  end.

Definition isDigit (c : ascii) : bool :=
  let n := nat_of_ascii c in ((48 <=? n) && (n <=? 57))%nat.

Definition isHex (c : ascii) : bool :=
  let n := nat_of_ascii c in
  (((48 <=? n) && (n <=? 57)) || ((65 <=? n) && (n <=? 70))
   || ((97 <=? n) && (n <=? 102)))%nat.

(** The text of a string literal after its opening quote, up to the closing
    one: no control byte, and a backslash only before a quote, a backslash,
    a slash, one of [bfnrt], or [u] and four hexadecimal digits. *)
Fixpoint scanString (acc s : string) : option (string * string) :=
  match s with
  | EmptyString => None
  | String c s' =>
      if (nat_of_ascii c =? 34)%nat then Some (acc, s')
      else if (nat_of_ascii c <? 32)%nat then None
      else if (nat_of_ascii c =? 92)%nat then
        match s' with
        | String e s'' =>
            if existsb (Nat.eqb (nat_of_ascii e)) [34; 92; 47; 98; 102; 110; 114; 116]%nat
            then scanString (acc +:+ String c (String e EmptyString)) s''
            else if (nat_of_ascii e =? 117)%nat
                    && (strings.len (strings.sub s'' 0 4) =? 4)%nat
                    && http.allBytes isHex (strings.sub s'' 0 4)
            then scanString (acc +:+ String c (String e EmptyString)) s''
            else None
        | EmptyString => None
        end
      else scanString (acc +:+ String c EmptyString) s'
  end.

Fixpoint digits (acc s : string) : string * string :=
  match s with
  | String c s' => if isDigit c then digits (acc +:+ String c EmptyString) s' else (acc, s)
  | EmptyString => (acc, s)
  end.

(** A number: an optional minus, [0] or digits that do not start with [0],
    an optional fraction, an optional exponent. *)
Definition scanNumber (s : string) : option (string * string) :=
  let '(sign, s) := match s with String "-" s' => ("-", s') | _ => (EmptyString, s) end in
  let '(int, s) := match s with
                   | String "0" s' => ("0", s')
                   | _ => digits EmptyString s
                   end in
  if (strings.len int =? 0)%nat then None else
  let frac := match s with
              | String "." s' =>
                  let '(d, r) := digits EmptyString s' in
                  if (strings.len d =? 0)%nat then None else Some ("." +:+ d, r)
              | _ => Some (EmptyString, s)
              end in
  match frac with
  | None => None
  | Some (f, s) =>
      match s with
      | String e s' =>
          if existsb (Nat.eqb (nat_of_ascii e)) [69; 101]%nat then
            let '(sg, s'') := match s' with
                              | String "+" t => ("+", t)
                              | String "-" t => ("-", t)
                              | _ => (EmptyString, s')
                              end in
            let '(d, r) := digits EmptyString s'' in
            if (strings.len d =? 0)%nat then None
            else Some (sign +:+ int +:+ f +:+ String e sg +:+ d, r)
          else Some (sign +:+ int +:+ f, s)
      | EmptyString => Some (sign +:+ int +:+ f, s)
      end
  end.

(** One value at the start of [s], and the text that follows it. *)
Fixpoint parseValue (fuel : nat) (s : string) : option (tree * string) :=
  match fuel with
  | O => None
  | S fuel =>
      match skip s with
      | String c r =>
          let n := nat_of_ascii c in
          if (n =? 34)%nat then
            match scanString EmptyString r with
            | Some (t, r) => Some (Str t, r)
            | None => None
            end
          else if (n =? 91)%nat then
            match skip r with
            | String "]" r' => Some (Array [], r')
            | _ => match parseItems fuel r with
                   | Some (l, r) => Some (Array l, r)
                   | None => None
                   end
            end
          else if (n =? 123)%nat then
            match skip r with
            | String "}" r' => Some (Object [], r')
            | _ => match parseMembers fuel r with
                   | Some (l, r) => Some (Object l, r)
                   | None => None
                   end
            end
          else if strings.HasPrefix (skip s) "true" then
            Some (Bool true, strings.TrimPrefix (skip s) "true")
          else if strings.HasPrefix (skip s) "false" then
            Some (Bool false, strings.TrimPrefix (skip s) "false")
          else if strings.HasPrefix (skip s) "null" then
            Some (Null, strings.TrimPrefix (skip s) "null")
          else match scanNumber (skip s) with
               | Some (d, r) => Some (Number d, r)
               | None => None
               end
      | EmptyString => None
      end
  end
with parseItems (fuel : nat) (s : string) : option (list tree * string) :=
  match fuel with
  | O => None
  | S fuel =>
      match parseValue fuel s with
      | Some (v, r) =>
          match skip r with
          | String "," r' =>
              match parseItems fuel r' with
              | Some (l, r) => Some (v :: l, r)
              | None => None
              end
          | String "]" r' => Some ([v], r')
          | _ => None
          end
      | None => None
      end
  end
with parseMembers (fuel : nat) (s : string) : option (list (string * tree) * string) :=
  match fuel with
  | O => None
  | S fuel =>
      match skip s with
      | String q r =>
          if (nat_of_ascii q =? 34)%nat then
            match scanString EmptyString r with
            | Some (k, r) =>
                match skip r with
                | String ":" r =>
                    match parseValue fuel r with
                    | Some (v, r) =>
                        match skip r with
                        | String "," r' =>
                            match parseMembers fuel r' with
                            | Some (l, r) => Some ((k, v) :: l, r)
                            | None => None
                            end
                        | String "}" r' => Some ([(k, v)], r')
                        | _ => None
                        end
                    | None => None
                    end
                | _ => None
                end
            | None => None
            end
          else None
      | EmptyString => None
      end
  end.

(** A text is one value, with white space around it at most. *)
Definition parse (s : string) : option tree :=
  match parseValue (S (strings.len s)) s with
  | Some (v, r) => if (strings.len (skip r) =? 0)%nat then Some v else None
  | None => None
  end.

Definition quoted (s : string) : string :=
  String (ascii_of_nat 34) s +:+ String (ascii_of_nat 34) EmptyString.

Fixpoint print (t : tree) : string :=
  match t with
  | Null => "null"
  | Bool true => "true"
  | Bool false => "false"
  | Number d => d
  | Str raw => quoted raw
  | Array items =>
      "[" +:+ (fix go l := match l with
                           | [] => EmptyString
                           | [x] => print x
                           | x :: l' => print x +:+ "," +:+ go l'
                           end) items +:+ "]"
  | Object members =>
      "{" +:+ (fix go l := match l with
                           | [] => EmptyString
                           | [(k, x)] => quoted k +:+ ":" +:+ print x
                           | (k, x) :: l' => quoted k +:+ ":" +:+ print x +:+ "," +:+ go l'
                           end) members +:+ "}"
  end.

Definition codec : Codec :=
  {| value := tree;
     Unmarshal := fun bs => match parse bs with
                            | Some Null => Some None
                            | Some t => Some (Some t)
                            | None => None
                            end;
     Marshal := fun t => Some (print t) |}.

End jsontext.

(** ** Upstreams and inbound requests to run the handlers on. *)
Module samples.

(** A transport that answers the API root with [root] and every other
    address with [other]. *)
Definition transport (root other : github.Exchange)
    : list http.Request -> http.Request -> github.Exchange :=
  fun _ req =>
    if String.eqb (http.URL req) "https://api.github.com/" then root else other.

Definition upstream (root other : github.Exchange) : github.CodespacesClient :=
  github.NewCodespacesClient (transport root other).

(** The API root answers 200 with [raw] in its [X-OAuth-Scopes] header, which Go
    stores under the canonical key. *)
Definition grants (raw : string) : github.Exchange :=
  github.Responds 200 {[ "X-Oauth-Scopes" := [raw] ]} "{}".

Definition notFoundBody : string :=
  "{" +:+ jsontext.quoted "message" +:+ ":" +:+ jsontext.quoted "not found" +:+ "}".

Definition notFound : github.Exchange :=
  github.Responds 404 {[ "Content-Type" := ["application/json; charset=utf-8"] ]}
                  notFoundBody.

(** An inbound request with the given [Authorization] header. *)
Definition inbound (method path auth : string) (body : http.reader) : http.Request :=
  {| http.Method := method; http.URL := path;
     http.Hdr := {[ "Authorization" := [auth] ]}; http.Body := body |}.

(** An inbound request without any header. *)
Definition anonymous (method path : string) : http.Request :=
  {| http.Method := method; http.URL := path; http.Hdr := ∅; http.Body := http.NoBody |}.

End samples.

(** * Properties *)

(** ** Strings *)
Module strings_facts.
Import strings.

Lemma append_cons (c : ascii) (a b : string) : String c a +:+ b = String c (a +:+ b).
Proof. reflexivity. Qed.

Lemma append_nil_l (b : string) : "" +:+ b = b.
Proof. reflexivity. Qed.

Lemma append_nil_r (s : string) : s +:+ "" = s.
Proof.
  induction s as [|c s IH]; [reflexivity | now rewrite append_cons, IH].
Qed.

Lemma append_assoc (a b c : string) : (a +:+ b) +:+ c = a +:+ (b +:+ c).
Proof.
  induction a as [|x a IH]; [reflexivity | now rewrite !append_cons, IH].
Qed.

Lemma len_append (a b : string) : len (a +:+ b) = (len a + len b)%nat.
Proof.
  unfold len. induction a as [|x a IH]; [reflexivity |].
  rewrite append_cons. simpl. now rewrite IH.
Qed.

Lemma append_empty (a b : string) : a +:+ b = "" -> a = "" /\ b = "".
Proof. destruct a; [auto | rewrite append_cons; discriminate]. Qed.

Lemma substring_all (s : string) : substring 0 (len s) s = s.
Proof. unfold len. induction s as [|c s IH]; simpl; [reflexivity | now rewrite IH]. Qed.

Lemma substring_head (a b : string) : substring 0 (len a) (a +:+ b) = a.
Proof.
  unfold len. induction a as [|c a IH].
  - rewrite append_nil_l. destruct b; reflexivity.
  - rewrite append_cons. simpl. now rewrite IH.
Qed.

Lemma substring_tail (a b : string) : substring (len a) (len b) (a +:+ b) = b.
Proof.
  unfold len. induction a as [|c a IH]; [apply substring_all |].
  rewrite append_cons. simpl. exact IH.
Qed.

(** A string is its first [k] bytes followed by the rest. *)
Lemma substring_cut (s : string) (k : nat) :
  (k <= len s)%nat -> s = substring 0 k s +:+ substring k (len s - k) s.
Proof.
  unfold len. revert k. induction s as [|c s IH]; intros k Hk; simpl in *.
  - destruct k; [reflexivity | lia].
  - destruct k; simpl.
    + rewrite append_nil_l. now rewrite substring_all.
    + rewrite append_cons. f_equal. apply IH. lia.
Qed.

Lemma HasSuffix_true (s suffix : string) :
  HasSuffix s suffix = true <-> exists name, s = name +:+ suffix.
Proof.
  unfold HasSuffix, sub. split.
  - intros H. apply andb_true_iff in H as [Hlen Heq].
    apply Nat.leb_le in Hlen. apply String.eqb_eq in Heq.
    exists (substring 0 (len s - len suffix) s).
    pose proof (substring_cut s (len s - len suffix)) as Hcut.
    rewrite Heq in Hcut. apply Hcut. lia.
  - intros [name ->]. rewrite len_append.
    apply andb_true_iff. split; [apply Nat.leb_le; lia |].
    apply String.eqb_eq.
    replace (len name + len suffix - len suffix)%nat with (len name) by lia.
    replace (len name + len suffix - len name)%nat with (len suffix) by lia.
    apply substring_tail.
Qed.

Lemma TrimSuffix_append (name suffix : string) :
  TrimSuffix (name +:+ suffix) suffix = name.
Proof.
  unfold TrimSuffix.
  assert (H : HasSuffix (name +:+ suffix) suffix = true)
    by (apply HasSuffix_true; eauto).
  rewrite H. unfold sub. rewrite len_append.
  replace (len name + len suffix - len suffix - 0)%nat with (len name) by lia.
  apply substring_head.
Qed.

Lemma HasPrefix_true (s prefix : string) :
  HasPrefix s prefix = true <-> exists rest, s = prefix +:+ rest.
Proof.
  unfold HasPrefix, sub. rewrite Nat.sub_0_r. split.
  - intros H. apply andb_true_iff in H as [Hlen Heq].
    apply Nat.leb_le in Hlen. apply String.eqb_eq in Heq.
    exists (substring (len prefix) (len s - len prefix) s).
    pose proof (substring_cut s (len prefix) Hlen) as Hcut.
    now rewrite Heq in Hcut.
  - intros [rest ->]. rewrite len_append.
    apply andb_true_iff. split; [apply Nat.leb_le; lia |].
    apply String.eqb_eq, substring_head.
Qed.

Lemma TrimPrefix_append (prefix rest : string) :
  TrimPrefix (prefix +:+ rest) prefix = rest.
Proof.
  unfold TrimPrefix.
  assert (H : HasPrefix (prefix +:+ rest) prefix = true)
    by (apply HasPrefix_true; eauto).
  rewrite H. unfold sub. rewrite len_append.
  replace (len prefix + len rest - len prefix)%nat with (len rest) by lia.
  apply substring_tail.
Qed.

(** *** Fields *)

(** A run without white space stays in the current field. *)
Lemma fieldsFrom_word (word : string) :
  http.allBytes (fun c => negb (isSpace c)) word = true ->
  forall cur rest,
    fieldsFrom cur (word +:+ rest) = fieldsFrom (cur +:+ word) rest.
Proof.
  induction word as [|c word IH]; intros Hw cur rest.
  - now rewrite append_nil_r.
  - simpl in Hw. apply andb_true_iff in Hw as [Hc Hw]. apply negb_true_iff in Hc.
    rewrite append_cons. simpl. rewrite Hc, (IH Hw).
    now rewrite append_assoc.
Qed.

(** A string without white space is its own single field. *)
Lemma Fields_word (word : string) :
  word <> "" ->
  http.allBytes (fun c => negb (isSpace c)) word = true ->
  Fields word = [word].
Proof.
  intros Hne Hw. unfold Fields.
  rewrite <- (append_nil_r word) at 1. rewrite (fieldsFrom_word word Hw).
  rewrite append_nil_l. simpl.
  destruct word; [congruence | reflexivity].
Qed.

(** Two words with one space between them are two fields. *)
Lemma Fields_pair (scheme word : string) :
  scheme <> "" -> word <> "" ->
  http.allBytes (fun c => negb (isSpace c)) scheme = true ->
  http.allBytes (fun c => negb (isSpace c)) word = true ->
  Fields (scheme +:+ " " +:+ word) = [scheme; word].
Proof.
  intros Hs Hw As Aw. unfold Fields.
  rewrite (fieldsFrom_word scheme As). rewrite append_nil_l, append_cons. simpl.
  destruct scheme as [|c scheme]; [congruence |]. simpl.
  f_equal. apply (Fields_word word Hw Aw).
Qed.

(** No field at all: exactly the strings made of white space. *)
Lemma fieldsFrom_nil (s cur : string) :
  fieldsFrom cur s = [] <-> cur = "" /\ http.allBytes isSpace s = true.
Proof.
  revert cur. induction s as [|c s IH]; intros cur; simpl.
  - destruct cur; simpl; split; intros H; try discriminate; auto.
    destruct H; discriminate.
  - destruct (isSpace c) eqn:Hc; simpl.
    + destruct cur as [|x cur]; simpl.
      * rewrite IH. tauto.
      * split; [discriminate | intros [H _]; discriminate].
    + rewrite IH. split; intros [H1 H2]; [| discriminate].
      apply append_empty in H1 as [_ H1]. discriminate.
Qed.

Lemma Fields_nil (s : string) :
  Fields s = [] <-> http.allBytes isSpace s = true.
Proof. unfold Fields. rewrite fieldsFrom_nil. tauto. Qed.

(** *** Split and TrimSpace *)

Lemma splitFrom_pieces (sep : ascii) (s cur : string) :
  exists piece pieces, splitFrom sep cur s = piece :: pieces.
Proof.
  revert cur. induction s as [|c s IH]; intros cur; simpl; [eauto |].
  destruct (Ascii.eqb c sep); eauto.
Qed.

Lemma concat_more (sep x y : string) (l : list string) :
  String.concat sep (x :: y :: l) = x +:+ sep +:+ String.concat sep (y :: l).
Proof. reflexivity. Qed.

(** Putting the separator back between the pieces gives the string. *)
Lemma splitFrom_concat (sep : ascii) (s cur : string) :
  String.concat (String sep "") (splitFrom sep cur s) = cur +:+ s.
Proof.
  revert cur. induction s as [|c s IH]; intros cur.
  - simpl. now rewrite append_nil_r.
  - cbn [splitFrom]. destruct (Ascii.eqb_spec c sep) as [->|Hne].
    + pose proof (IH "") as Hrest.
      destruct (splitFrom_pieces sep s "") as (piece & pieces & E).
      rewrite E in *. rewrite concat_more, Hrest. reflexivity.
    + rewrite IH. now rewrite append_assoc.
Qed.

Lemma Split_concat (s : string) (sep : ascii) :
  String.concat (String sep "") (Split s sep) = s.
Proof. unfold Split. now rewrite splitFrom_concat. Qed.

(** No piece holds the separator. *)
Lemma splitFrom_free (sep : ascii) (s cur : string) :
  http.allBytes (fun c => negb (Ascii.eqb c sep)) cur = true ->
  Forall (fun piece => http.allBytes (fun c => negb (Ascii.eqb c sep)) piece = true)
         (splitFrom sep cur s).
Proof.
  revert cur. induction s as [|c s IH]; intros cur Hcur; simpl.
  - constructor; [assumption | constructor].
  - destruct (Ascii.eqb c sep) eqn:E.
    + constructor; [assumption | now apply IH].
    + apply IH. clear IH. induction cur as [|x cur IHc]; simpl in *.
      * now rewrite E.
      * apply andb_true_iff in Hcur as [Hx Hcur]. rewrite Hx. now apply IHc.
Qed.

Lemma Split_free (s : string) (sep : ascii) :
  Forall (fun piece => http.allBytes (fun c => negb (Ascii.eqb c sep)) piece = true)
         (Split s sep).
Proof. now apply splitFrom_free. Qed.

(** [TrimLeft] takes white space off the front and nothing else. *)
Lemma TrimLeft_frame (s : string) :
  exists l, s = l +:+ TrimLeft s /\ http.allBytes isSpace l = true
            /\ match TrimLeft s with
               | String c _ => isSpace c = false
               | EmptyString => True
               end.
Proof.
  induction s as [|c s (l & Hs & Hl & Hhead)]; simpl.
  - exists "". auto.
  - destruct (isSpace c) eqn:Hc.
    + exists (String c l). rewrite append_cons, <- Hs. simpl. rewrite Hc. auto.
    + exists "". auto.
Qed.

(** [TrimRight] takes white space off the end and nothing else. *)
Lemma TrimRight_frame (s : string) :
  exists r, s = TrimRight s +:+ r /\ http.allBytes isSpace r = true.
Proof.
  induction s as [|c s (r & Hs & Hr)]; simpl.
  - exists "". auto.
  - destruct (TrimRight s) as [|x t] eqn:Ht.
    + rewrite append_nil_l in Hs. subst r.
      destruct (isSpace c) eqn:Hc.
      * exists (String c s). simpl. rewrite Hc. auto.
      * exists s. auto.
    + exists r. rewrite append_cons, <- Hs. auto.
Qed.

(** What [TrimRight] returns does not end in white space. *)
Lemma TrimRight_end (s t : string) (c : ascii) :
  TrimRight s = t +:+ String c "" -> isSpace c = false.
Proof.
  revert t. induction s as [|x s IH]; intros t; simpl.
  - intros E. symmetry in E. apply append_empty in E as [_ E]. discriminate.
  - destruct (TrimRight s) as [|y u] eqn:Hu.
    + destruct (isSpace x) eqn:Hx.
      * intros E. symmetry in E. apply append_empty in E as [_ E]. discriminate.
      * destruct t as [|z t].
        -- rewrite append_nil_l. now intros [= <-].
        -- rewrite append_cons. intros [= _ E]. symmetry in E.
           apply append_empty in E as [_ E]. discriminate.
    + destruct t as [|z t].
      * rewrite append_nil_l. discriminate.
      * rewrite append_cons. intros [= _ E]. now apply (IH t).
Qed.

(** [TrimSpace] returns the string without the white space around it. *)
Lemma TrimSpace_frame (s : string) :
  exists l r, s = l +:+ TrimSpace s +:+ r
              /\ http.allBytes isSpace l = true /\ http.allBytes isSpace r = true.
Proof.
  unfold TrimSpace.
  destruct (TrimLeft_frame s) as (l & Hs & Hl & _).
  destruct (TrimRight_frame (TrimLeft s)) as (r & Hm & Hr).
  exists l, r. now rewrite <- Hm.
Qed.

End strings_facts.

(** ** Token extraction *)
Module token_facts.
Import strings strings_facts ghmcp.

(** The header that [extractToken] reads: [Authorization], or
    [X-Github-Token] when the first is empty. *)
Lemma extractToken_fields (r : http.Request) (auth : string) :
  (if String.eqb (http.Get (http.Hdr r) "Authorization") ""
   then http.Get (http.Hdr r) "X-Github-Token"
   else http.Get (http.Hdr r) "Authorization") = auth ->
  extractToken r =
    if String.eqb auth "" then Done ""
    else match Fields auth with
         | [] => Panicked
         | [p] => Done p
         | _ :: p :: _ => Done p
         end.
Proof.
  intros H. unfold extractToken. rewrite H.
  destruct (String.eqb auth ""); [reflexivity |].
  destruct (Fields auth) as [|p0 [|p1 parts]]; reflexivity.
Qed.

Lemma extractToken_authorization (r : http.Request) (auth : string) :
  auth <> "" ->
  http.Get (http.Hdr r) "Authorization" = auth ->
  extractToken r =
    match Fields auth with
    | [] => Panicked
    | [p] => Done p
    | _ :: p :: _ => Done p
    end.
Proof.
  intros Hne H. apply String.eqb_neq in Hne.
  rewrite (extractToken_fields r auth); [now rewrite Hne |].
  now rewrite H, Hne.
Qed.

(** Any scheme word does, not only [Bearer]. *)
Lemma extractToken_scheme (r : http.Request) (scheme X : string) :
  scheme <> "" -> X <> "" ->
  http.allBytes (fun c => negb (isSpace c)) scheme = true ->
  http.allBytes (fun c => negb (isSpace c)) X = true ->
  http.Get (http.Hdr r) "Authorization" = scheme +:+ " " +:+ X ->
  extractToken r = Done X.
Proof.
  intros Hs HX As AX H.
  rewrite (extractToken_authorization r _) with (2 := H).
  - now rewrite Fields_pair.
  - intros E. apply append_empty in E as [E _]. contradiction.
Qed.

(** C9: a header that is the bare token [X] gives [X]; the header
    [Bearer X] gives [X] as well, the second of its two parts; and empty
    [Authorization] and [X-Github-Token] headers give the empty token.
    ([X] stands for a token: not empty, made of ASCII bytes, and without
    white space.) *)
Theorem extractToken_forms (r : http.Request) (X : string) :
  X <> "" ->
  http.allBytes (fun c => (nat_of_ascii c <? 128)%nat) X = true ->
  http.allBytes (fun c => negb (isSpace c)) X = true ->
  (http.Get (http.Hdr r) "Authorization" = X -> extractToken r = Done X)
  /\ (http.Get (http.Hdr r) "Authorization" = "Bearer " +:+ X -> extractToken r = Done X)
  /\ (http.Get (http.Hdr r) "Authorization" = "" ->
      http.Get (http.Hdr r) "X-Github-Token" = "" -> extractToken r = Done "").
Proof.
  intros HX _ AX. repeat split.
  - intros H. rewrite (extractToken_authorization r X HX H).
    now rewrite Fields_word.
  - intros H. apply (extractToken_scheme r "Bearer" X); auto; discriminate.
  - intros H1 H2. unfold extractToken. now rewrite H1, H2.
Qed.

Lemma extractToken_forms_witness :
  extractToken (samples.inbound "GET" "/api/codespaces" "X" http.NoBody) = Done "X"
  /\ extractToken (samples.inbound "GET" "/api/codespaces" "Bearer X" http.NoBody) = Done "X"
  /\ extractToken (samples.anonymous "GET" "/api/codespaces") = Done "".
Proof.
  split; [| split].
  - refine (proj1 (extractToken_forms _ "X" _ _ _) _);
      [discriminate | reflexivity | reflexivity | reflexivity].
  - refine (proj1 (proj2 (extractToken_forms _ "X" _ _ _)) _);
      [discriminate | reflexivity | reflexivity | reflexivity].
  - refine (proj2 (proj2 (extractToken_forms _ "X" _ _ _)) _ _);
      [discriminate | reflexivity | reflexivity | reflexivity | reflexivity].
Defined.

(** C10: an [Authorization] header that is one space is not empty and has
    no field, so the index [parts[1]] is out of range and [extractToken]
    panics.  Every header read that is not empty and made of white space
    makes it panic, and among the headers made of ASCII bytes no other
    does; with one field it returns that field and with more it returns
    the second. *)
Theorem extractToken_blank_header_panics :
  (exists r : http.Request,
      http.Get (http.Hdr r) "Authorization" = " "
      /\ Fields " " = []
      /\ extractToken r = Panicked)
  /\ (forall (r : http.Request) (auth : string),
        (if String.eqb (http.Get (http.Hdr r) "Authorization") ""
         then http.Get (http.Hdr r) "X-Github-Token"
         else http.Get (http.Hdr r) "Authorization") = auth ->
        (auth <> "" -> http.allBytes isSpace auth = true -> extractToken r = Panicked)
        /\ (http.allBytes (fun c => (nat_of_ascii c <? 128)%nat) auth = true ->
            extractToken r = Panicked ->
            auth <> "" /\ http.allBytes isSpace auth = true)
        /\ (forall p, auth <> "" -> Fields auth = [p] -> extractToken r = Done p)
        /\ (forall p0 p1 parts, auth <> "" -> Fields auth = p0 :: p1 :: parts ->
            extractToken r = Done p1)).
Proof.
  split.
  - exists (samples.inbound "GET" "/api/codespaces" " " http.NoBody).
    repeat split; reflexivity.
  - intros r auth H. rewrite (extractToken_fields r auth H). split; [| split; [| split]].
    + intros Hne Hsp. apply String.eqb_neq in Hne. rewrite Hne.
      apply Fields_nil in Hsp. now rewrite Hsp.
    + intros _. destruct (String.eqb_spec auth ""); [discriminate |].
      intros Hp. split; [assumption |].
      apply Fields_nil. destruct (Fields auth) as [|p0 [|p1 parts]];
        [reflexivity | discriminate..].
    + intros p Hne Hf. apply String.eqb_neq in Hne. now rewrite Hne, Hf.
    + intros p0 p1 parts Hne Hf. apply String.eqb_neq in Hne. now rewrite Hne, Hf.
Qed.

End token_facts.

(** ** Running computations *)
Module run_facts.

Lemma bind_Done {A B} (m : M A) (k : A -> M B) calls a calls' :
  m calls = (Done a, calls') -> bind m k calls = k a calls'.
Proof. intros H. unfold bind. now rewrite H. Qed.

Lemma bind_Panicked {A B} (m : M A) (k : A -> M B) calls calls' :
  m calls = (Panicked, calls') -> bind m k calls = (Panicked, calls').
Proof. intros H. unfold bind. now rewrite H. Qed.

(** Run the first computation of a sequence with its known result [H]. *)
Ltac run H := rewrite (bind_Done _ _ _ _ _ H); cbv beta iota.

(** The writer after [http.Error] on a writer that has no status yet. *)
Lemma Error_written (w : http.ResponseWriter) (msg : string) (code : Z) :
  http.Code w = None ->
  http.Code (http.Error w msg code) = Some code
  /\ http.Written (http.Error w msg code)
     = http.Written w +:+ msg +:+ String (ascii_of_nat 10) "".
Proof.
  intros H. unfold http.Error, http.Write, http.setStatus; simpl.
  rewrite H. simpl. auto.
Qed.

End run_facts.

(** ** The upstream client *)
Module client_facts.
Import strings strings_facts run_facts.

(** The loop of [GetTokenScopes] over the pieces: appending to the [nil]
    slice gives a slice that is not [nil] as soon as there is a piece. *)
Lemma append_loop {A B} (f : A -> B) (l : list A) (acc : list B) :
  fold_left (fun scopes s => append scopes (f s)) l (Slice acc)
  = Slice (acc ++ map f l)%list.
Proof.
  revert acc. induction l as [|x l IH]; intros acc; simpl.
  - now rewrite app_nil_r.
  - unfold append at 2. simpl. rewrite IH. now rewrite <- app_assoc.
Qed.

Lemma append_loop_nil {A B} (f : A -> B) (x : A) (l : list A) :
  fold_left (fun scopes s => append scopes (f s)) (x :: l) nil_slice
  = Slice (map f (x :: l)).
Proof. simpl. unfold append at 2. simpl. now rewrite append_loop. Qed.

Lemma scopes_of_header (raw : string) :
  fold_left (fun scopes s => append scopes (TrimSpace s)) (Split raw ",") nil_slice
  = Slice (map TrimSpace (Split raw ",")).
Proof.
  unfold Split. destruct (splitFrom_pieces "," raw "") as (piece & pieces & ->).
  apply append_loop_nil.
Qed.

(** A header without the key reads as the empty string. *)
Lemma Get_absent (h : http.Header) (key : string) :
  h !! http.CanonicalMIMEHeaderKey key = None -> http.Get h key = "".
Proof. intros H. unfold http.Get. now rewrite H. Qed.

Section Client.
Context (json : Codec).
Variable c : github.CodespacesClient.

(** A request without body is always built. *)
Lemma newRequest_nobody (method path token : string) :
  exists req, github.newRequest json c method path token None = inr req
              /\ http.Method req = method
              /\ http.URL req = github.BaseURL c +:+ path
              /\ http.Body req = http.NoBody.
Proof. unfold github.newRequest. eexists. repeat split. Qed.

(** [GetTokenScopes] hands exactly one request to the transport, and what
    it returns is read off the exchange. *)
Lemma GetTokenScopes_run (token : string) (calls : list http.Request) (req : http.Request) :
  github.newRequest json c "GET" "/" token None = inr req ->
  github.GetTokenScopes json c token calls =
    (Done match github.HTTPClient c calls req with
          | github.DoFails e => (nil_slice, Some (TransportError e))
          | github.ReadFails _ _ e => (nil_slice, Some (TransportError e))
          | github.Responds status hdr _ =>
              if status >=? 400 then (nil_slice, Some (StatusError status))
              else if String.eqb (http.Get hdr "X-OAuth-Scopes") "" then (Slice [], None)
              else (Slice (map TrimSpace (Split (http.Get hdr "X-OAuth-Scopes") ",")), None)
          end,
     (calls ++ [req])%list).
Proof.
  intros Hreq. unfold github.GetTokenScopes. rewrite Hreq.
  unfold bind, github.doRaw.
  destruct (github.HTTPClient c calls req) as [e|status hdr e|status hdr body];
    try reflexivity.
  destruct (status >=? 400); [reflexivity |].
  destruct (String.eqb (http.Get hdr "X-OAuth-Scopes") ""); [reflexivity |].
  unfold ret. now rewrite scopes_of_header.
Qed.

(** C8, as the code has it: when the upstream answers the scope request
    with a status of 400 or more, [GetTokenScopes] fails; with a smaller
    status and a header value that is not empty it returns the pieces of
    the [X-OAuth-Scopes] value between commas, each trimmed of white space; and
    when the header reads as empty, be it absent or present without a
    value, it returns the empty slice, which is not the [nil] slice. *)
Theorem GetTokenScopes_spec (token : string) (calls : list http.Request)
    (req : http.Request) (status : Z) (hdr : http.Header) (body : string) :
  github.newRequest json c "GET" "/" token None = inr req ->
  github.HTTPClient c calls req = github.Responds status hdr body ->
  (400 <= status ->
     github.GetTokenScopes json c token calls
     = (Done (nil_slice, Some (StatusError status)), (calls ++ [req])%list))
  /\ (status < 400 -> http.Get hdr "X-OAuth-Scopes" <> "" ->
      github.GetTokenScopes json c token calls
      = (Done (Slice (map TrimSpace (Split (http.Get hdr "X-OAuth-Scopes") ",")), None),
         (calls ++ [req])%list))
  /\ (status < 400 -> http.Get hdr "X-OAuth-Scopes" = "" ->
      github.GetTokenScopes json c token calls
      = (Done (Slice [], None), (calls ++ [req])%list)
      /\ Slice [] <> @nil_slice string)
  /\ (hdr !! "X-Oauth-Scopes" = None -> http.Get hdr "X-OAuth-Scopes" = "").
Proof.
  intros Hreq Hex. rewrite (GetTokenScopes_run token calls req Hreq), Hex.
  split; [| split; [| split]].
  - intros Hs. apply Z.geb_le in Hs. now rewrite Hs.
  - intros Hs Hraw.
    assert ((status >=? 400) = false) as -> by (rewrite Z.geb_leb; apply Z.leb_gt; lia).
    apply String.eqb_neq in Hraw. now rewrite Hraw.
  - intros Hs Hraw.
    assert ((status >=? 400) = false) as -> by (rewrite Z.geb_leb; apply Z.leb_gt; lia).
    rewrite Hraw. split; [reflexivity | discriminate].
  - intros Habsent. now apply (Get_absent hdr "X-OAuth-Scopes").
Qed.

End Client.

Lemma GetTokenScopes_spec_witness :
  let c := samples.upstream (samples.grants "repo, codespaces ,read:org") samples.notFound in
  github.GetTokenScopes jsontext.codec c "tok" []
  = (Done (Slice ["repo"; "codespaces"; "read:org"], None),
     [{| http.Method := "GET"; http.URL := "https://api.github.com/";
         http.Hdr := {[ "Accept" := ["application/vnd.github+json;apiVersion=2022-11-28"];
                        "User-Agent" := ["github-mcp-server/codespaces-client"];
                        "Authorization" := ["token tok"] ]};
         http.Body := http.NoBody |}]).
Proof.
  intros c.
  refine (eq_trans
    (proj1 (proj2 (GetTokenScopes_spec jsontext.codec c "tok" [] _ 200 _ "{}" _ _)) _ _) _).
  - reflexivity.
  - reflexivity.
  - reflexivity.
  - discriminate.
  - vm_compute. reflexivity.
Defined.

(** The claim as worded fails: on a scope header that is present without a
    value the result is the empty list, not the one empty piece that
    splitting and trimming the value gives. *)
Lemma empty_scope_header_not_split :
  let hdr : http.Header := {[ "X-Oauth-Scopes" := [EmptyString] ]} in
  let c := samples.upstream (github.Responds 200 hdr "{}") samples.notFound in
  hdr !! "X-Oauth-Scopes" = Some [EmptyString]
  /\ fst (github.GetTokenScopes jsontext.codec c "tok" []) = Done (Slice [], None)
  /\ map TrimSpace (Split (http.Get hdr "X-OAuth-Scopes") ",") = [EmptyString]
  /\ @Slice string [] <> Slice (map TrimSpace (Split (http.Get hdr "X-OAuth-Scopes") ",")).
Proof. vm_compute. repeat split; discriminate. Qed.

End client_facts.

(** ** The scope gate *)
Module gate_facts.
Import strings strings_facts run_facts client_facts ghmcp.

Lemma index_insert (have : gmap string bool) (k k' : string) :
  index (<[k := true]> have) k' = true <-> k = k' \/ index have k' = true.
Proof.
  unfold index. destruct (decide (k = k')) as [->|Hne].
  - rewrite lookup_insert_eq. simpl. tauto.
  - rewrite lookup_insert_ne by assumption. tauto.
Qed.

(** What the first loop of [ensureScopes] leaves in [have]. *)
Lemma have_filled (f : string -> string) (l : list string)
    (init : gmap string bool) (k : string) :
  index (fold_left (fun have s => <[f s := true]> have) l init) k = true
  <-> index init k = true \/ exists s, In s l /\ f s = k.
Proof.
  revert init. induction l as [|x l IH]; intros init; simpl.
  - split; [auto | intros [H | (s & [] & _)]; exact H].
  - rewrite IH, index_insert. split.
    + intros [[H | H] | (s & Hs & E)]; eauto 6.
    + intros [H | (s & [-> | Hs] & E)]; eauto 6.
Qed.

Lemma index_empty (k : string) : index ∅ k = false.
Proof. unfold index. now rewrite lookup_empty. Qed.

(** The gate passes exactly when every required scope, in lower case, is
    the lower-case trimmed form of a granted scope. *)
Lemma checkScopes_None (scopes required : slice string) :
  checkScopes scopes required = None
  <-> forall r, In r (elems required) ->
        exists g, In g (elems scopes) /\ ToLower (TrimSpace g) = ToLower r.
Proof.
  unfold checkScopes.
  set (have := fold_left _ (elems scopes) ∅).
  assert (Hhave : forall k, index have k = true
                    <-> exists g, In g (elems scopes) /\ ToLower (TrimSpace g) = k).
  { intros k. unfold have.
    rewrite (have_filled (fun s => ToLower (TrimSpace s))), index_empty.
    split; [intros [H | H]; [discriminate | exact H] | auto]. }
  destruct (existsb _ (elems required)) eqn:E.
  - split; [discriminate |]. intros H.
    apply existsb_exists in E as (r & Hr & Hneg).
    apply negb_true_iff in Hneg.
    apply H, Hhave in Hr. congruence.
  - split; [| reflexivity]. intros _ r Hr. apply Hhave.
    destruct (index have (ToLower r)) eqn:Hi; [reflexivity |].
    assert (existsb (fun r => negb (index have (ToLower r))) (elems required) = true)
      by (apply existsb_exists; exists r; split; [assumption | now rewrite Hi]).
    congruence.
Qed.

(** The only failure of the gate proper carries both lists. *)
Lemma checkScopes_Some (scopes required : slice string) (e : error) :
  checkScopes scopes required = Some e -> e = InsufficientScopeError required scopes.
Proof.
  unfold checkScopes. destruct (existsb _ _); [congruence | discriminate].
Qed.

(** C4, as the code has it: the comparison ignores case on both sides and
    trims white space on the granted side (a required scope is lower-cased
    but not trimmed).  The gate passes exactly when every required scope
    matches a granted one in this way; otherwise it returns
    [InsufficientScopeError] with the required and the granted scopes.  The
    granted scope [" CodeSpaces "] satisfies the required [codespaces]. *)
Theorem checkScopes_spec (scopes required : slice string) :
  (checkScopes scopes required = None
   <-> forall r, In r (elems required) ->
         exists g, In g (elems scopes) /\ ToLower (TrimSpace g) = ToLower r)
  /\ ((exists r, In r (elems required)
                 /\ forall g, In g (elems scopes) -> ToLower (TrimSpace g) <> ToLower r)
      -> checkScopes scopes required = Some (InsufficientScopeError required scopes))
  /\ checkScopes (Slice [" CodeSpaces "]) (Slice ["codespaces"]) = None.
Proof.
  split; [apply checkScopes_None | split; [| reflexivity]].
  intros (r & Hr & Habsent).
  destruct (checkScopes scopes required) as [e|] eqn:E.
  - now rewrite (checkScopes_Some _ _ _ E).
  - exfalso. pose proof (proj1 (checkScopes_None scopes required) E r Hr)
      as (g & Hg & Heq). exact (Habsent g Hg Heq).
Qed.

(** The claim as worded fails: the required scope [" codespaces "] and the
    granted scope [codespaces] are equal once both are trimmed and
    lower-cased, yet the gate refuses. *)
Lemma checkScopes_required_not_trimmed :
  ToLower (TrimSpace " codespaces ") = ToLower (TrimSpace "codespaces")
  /\ checkScopes (Slice ["codespaces"]) (Slice [" codespaces "])
     = Some (InsufficientScopeError (Slice [" codespaces "]) (Slice ["codespaces"])).
Proof. split; reflexivity. Qed.

Section Gate.
Context (json : Codec).
Variable client : github.CodespacesClient.

Lemma ensureScopes_run (token : string) (required : slice string)
    (calls : list http.Request) (req : http.Request) :
  github.newRequest json client "GET" "/" token None = inr req ->
  ensureScopes json client token required calls =
    (Done match github.HTTPClient client calls req with
          | github.DoFails e => Some (TransportError e)
          | github.ReadFails _ _ e => Some (TransportError e)
          | github.Responds status hdr _ =>
              if status >=? 400 then Some (StatusError status)
              else if String.eqb (http.Get hdr "X-OAuth-Scopes") ""
              then checkScopes (Slice []) required
              else checkScopes
                     (Slice (map TrimSpace (Split (http.Get hdr "X-OAuth-Scopes") ",")))
                     required
          end,
     (calls ++ [req])%list).
Proof.
  intros Hreq. unfold ensureScopes.
  rewrite (bind_Done _ _ _ _ _ (GetTokenScopes_run json client token calls req Hreq)).
  destruct (github.HTTPClient client calls req) as [e|status hdr e|status hdr body];
    try reflexivity.
  destruct (status >=? 400); [reflexivity |].
  destruct (String.eqb (http.Get hdr "X-OAuth-Scopes") ""); reflexivity.
Qed.

(** The gate issues exactly one upstream call, the scope fetch, and never
    panics. *)
Lemma ensureScopes_calls (token : string) (required : slice string)
    (calls : list http.Request) :
  exists req res,
    github.newRequest json client "GET" "/" token None = inr req
    /\ http.Method req = "GET"
    /\ http.URL req = github.BaseURL client +:+ "/"
    /\ ensureScopes json client token required calls = (Done res, (calls ++ [req])%list).
Proof.
  destruct (newRequest_nobody json client "GET" "/" token) as (req & Hreq & Hm & Hu & _).
  exists req. eexists. repeat split; try eassumption.
  apply (ensureScopes_run token required calls req Hreq).
Qed.

(** A failure of the fetch is never an [InsufficientScopeError]. *)
Lemma ensureScopes_error (token : string) (required : slice string)
    (calls calls' : list http.Request) (e : error) :
  ensureScopes json client token required calls = (Done (Some e), calls') ->
  (exists msg, e = TransportError msg)
  \/ (exists status, e = StatusError status /\ 400 <= status)
  \/ e = InsufficientScopeError required
           match github.GetTokenScopes json client token calls with
           | (Done (scopes, _), _) => scopes
           | _ => nil_slice
           end.
Proof.
  destruct (newRequest_nobody json client "GET" "/" token) as (req & Hreq & _).
  rewrite (ensureScopes_run token required calls req Hreq).
  rewrite (GetTokenScopes_run json client token calls req Hreq).
  destruct (github.HTTPClient client calls req) as [m|status hdr m|status hdr body].
  - intros [= <- _]. eauto.
  - intros [= <- _]. eauto.
  - destruct (status >=? 400) eqn:Hs.
    + intros [= <- _]. right; left. exists status. split; [reflexivity |].
      now apply Z.geb_le.
    + destruct (String.eqb (http.Get hdr "X-OAuth-Scopes") "");
        intros [= H _]; right; right; now apply checkScopes_Some.
Qed.

End Gate.
End gate_facts.

(** ** The handlers *)
Module handler_facts.
Import strings strings_facts run_facts client_facts gate_facts ghmcp.

Lemma Get_Set (h : http.Header) (key value : string) :
  http.Get (http.Set_ h key value) key = value.
Proof. unfold http.Get, http.Set_. now rewrite lookup_insert_eq. Qed.




Section Handlers.
Context (json : Codec).
Variable client : github.CodespacesClient.

(** Each handler is an instance of the common shape. *)
Lemma perform_guarded (a : Action) (w : http.ResponseWriter) (r : http.Request) :
  perform json client a w r = guarded json client a w r.
Proof.
  destruct a; try reflexivity.
  unfold perform, guarded, handleCreateCodespace, actionBody, github.CreateCodespace,
    actionRequest.
  destruct (http.ReadAll (http.Body r)) as [bs|e]; [| reflexivity].
  destruct (if (0 <? len bs)%nat then Unmarshal json bs else Some None); reflexivity.
Qed.

Lemma send_run (req : http.Request) (calls : list http.Request) :
  github.send client (inr req) calls =
    (Done match github.HTTPClient client calls req with
          | github.DoFails e => (0, "", ∅, Some (TransportError e))
          | github.ReadFails status hdr e => (status, "", hdr, Some (TransportError e))
          | github.Responds status hdr bs => (status, bs, hdr, None)
          end,
     (calls ++ [req])%list).
Proof.
  unfold github.send, bind, github.doRaw, ret.
  destruct (github.HTTPClient client calls req); reflexivity.
Qed.

(** A handler whose request carries a token runs the gate next. *)
Lemma guarded_token (a : Action) (w : http.ResponseWriter) (r : http.Request)
    (calls : list http.Request) (token : string) :
  extractToken r = Done token -> token <> "" ->
  guarded json client a w r calls =
    bind (ensureScopes json client token (Slice ["codespaces"]))
         (fun err =>
            match err with
            | Some (InsufficientScopeError _ _) =>
                ret (http.Error w "insufficient token scopes: requires codespaces"
                                http.StatusForbidden)
            | Some _ =>
                ret (http.Error w "failed to validate token scopes"
                                http.StatusInternalServerError)
            | None =>
                match actionBody json a r with
                | None =>
                    ret (http.Error w
                           match http.ReadAll (http.Body r) with
                           | inr _ => "invalid request body"
                           | inl _ => "invalid json body"
                           end
                           http.StatusBadRequest)
                | Some body =>
                    bind (github.send client (actionRequest json client a token body))
                         (fun '(status, respBody, hdr, err) =>
                            match err with
                            | Some _ => ret (http.Error w "failed to call GitHub"
                                                        http.StatusBadGateway)
                            | None => lift (writeProxyResponse w status hdr respBody)
                            end)
                end
            end) calls.
Proof.
  intros Htok Hne. apply String.eqb_neq in Hne.
  unfold guarded. unfold bind at 1. unfold lift. rewrite Htok, Hne. reflexivity.
Qed.

(** C1: when the [Authorization] and [X-Github-Token] headers are both
    empty, the handler of each of the six actions answers 401 and the list
    of upstream calls is what it was: no scope fetch, no action call. *)
Theorem no_token_no_upstream_call (a : Action) (w : http.ResponseWriter)
    (r : http.Request) (calls : list http.Request) :
  http.Get (http.Hdr r) "Authorization" = "" ->
  http.Get (http.Hdr r) "X-Github-Token" = "" ->
  perform json client a w r calls
  = (Done (http.Error w "missing Authorization token" 401), calls)
  /\ (http.Code w = None ->
      http.Code (http.Error w "missing Authorization token" 401) = Some 401).
Proof.
  intros H1 H2. split.
  - rewrite perform_guarded. unfold guarded, bind, lift, extractToken.
    rewrite H1, H2. reflexivity.
  - intros Hw. now apply Error_written.
Qed.




Lemma actionBody_bad_json (r : http.Request) (bs : string) :
  http.ReadAll (http.Body r) = inl bs -> bs <> "" -> Unmarshal json bs = None ->
  actionBody json Create r = None.
Proof.
  intros Hread Hne Hbad. unfold actionBody. rewrite Hread.
  destruct bs; [congruence | exact Hbad].
Qed.

(** C2, as the code has it: a create request whose body is not empty and
    does not decode never makes the handler issue the create call.  The
    handler issues the scope fetch at most; and when the token is there and
    the gate passes, it answers 400 after that one upstream call. *)
Theorem undecodable_create_body (w : http.ResponseWriter) (r : http.Request)
    (calls : list http.Request) (bs : string) :
  http.ReadAll (http.Body r) = inl bs -> bs <> "" -> Unmarshal json bs = None ->
  (forall token calls1,
      extractToken r = Done token -> token <> "" ->
      ensureScopes json client token (Slice ["codespaces"]) calls = (Done None, calls1) ->
      handleCreateCodespace json client w r calls
      = (Done (http.Error w "invalid json body" 400), calls1)
      /\ exists req, github.newRequest json client "GET" "/" token None = inr req
                     /\ calls1 = (calls ++ [req])%list)
  /\ (forall o calls',
        handleCreateCodespace json client w r calls = (o, calls') ->
        calls' = calls
        \/ exists token req,
             github.newRequest json client "GET" "/" token None = inr req
             /\ http.Method req = "GET"
             /\ http.URL req = github.BaseURL client +:+ "/"
             /\ calls' = (calls ++ [req])%list).
Proof.
  intros Hread Hne Hbad.
  pose proof (actionBody_bad_json r bs Hread Hne Hbad) as Hbody.
  change (handleCreateCodespace json client w r) with (perform json client Create w r).
  rewrite perform_guarded. split.
  - intros token calls1 Htok Htne Hgate.
    rewrite (guarded_token Create w r calls token Htok Htne).
    run Hgate. rewrite Hbody, Hread.
    split; [reflexivity |].
    destruct (ensureScopes_calls json client token (Slice ["codespaces"]) calls)
      as (req & res & Hreq & _ & _ & Hrun).
    exists req. split; [assumption | congruence].
  - intros o calls'. destruct (extractToken r) as [token|] eqn:Htok.
    + destruct (String.eqb_spec token "") as [->|Htne].
      * unfold guarded, bind, lift. rewrite Htok. simpl. intros [= _ <-]. now left.
      * rewrite (guarded_token Create w r calls token Htok Htne).
        destruct (ensureScopes_calls json client token (Slice ["codespaces"]) calls)
          as (req & res & Hreq & Hm & Hu & Hrun).
        rewrite (bind_Done _ _ _ _ _ Hrun).
        intros Hout. right. exists token, req. repeat split; try assumption.
        destruct res as [[]|]; [| | | | rewrite Hbody in Hout];
          now injection Hout as _ <-.
    + unfold guarded, bind, lift. rewrite Htok. intros [= _ <-]. now left.
Qed.

End Handlers.

Lemma no_token_no_upstream_call_witness :
  perform jsontext.codec (samples.upstream (samples.grants "codespaces") samples.notFound)
          (Delete "my-cs") http.NewRecorder
          (samples.anonymous "DELETE" "/api/codespaces/my-cs") []
  = (Done (http.Error http.NewRecorder "missing Authorization token" 401), []).
Proof.
  exact (proj1 (no_token_no_upstream_call jsontext.codec _ (Delete "my-cs")
                  http.NewRecorder (samples.anonymous "DELETE" "/api/codespaces/my-cs") []
                  eq_refl eq_refl)).
Defined.




Lemma undecodable_create_body_witness :
  let c := samples.upstream (samples.grants "codespaces") samples.notFound in
  let r := samples.inbound "POST" "/api/codespaces" "Bearer tok" (http.Bytes "{not json") in
  exists req,
    handleCreateCodespace jsontext.codec c http.NewRecorder r []
    = (Done (http.Error http.NewRecorder "invalid json body" 400), [req])
    /\ http.Method req = "GET" /\ http.URL req = "https://api.github.com/".
Proof.
  intros c r.
  destruct (proj1 (undecodable_create_body jsontext.codec c http.NewRecorder r [] "{not json"
                     eq_refl ltac:(discriminate) eq_refl)
                  "tok" _ eq_refl ltac:(discriminate) eq_refl)
    as (Hrun & req & Hreq & Hcalls).
  exists req. split; [exact (eq_trans Hrun (f_equal (pair _) Hcalls)) |].
  injection Hreq as <-. split; reflexivity.
Defined.

(** The claim as worded fails: the 400 for a body that does not decode
    comes after an upstream call, the scope fetch. *)
Lemma bad_json_after_scope_fetch :
  let c := samples.upstream (samples.grants "codespaces") samples.notFound in
  let r := samples.inbound "POST" "/api/codespaces" "Bearer tok" (http.Bytes "{not json") in
  Unmarshal jsontext.codec "{not json" = None
  /\ match handleCreateCodespace jsontext.codec c http.NewRecorder r [] with
     | (Done w', calls') =>
         http.Code w' = Some 400
         /\ map http.Method calls' = ["GET"]
         /\ map http.URL calls' = ["https://api.github.com/"]
         /\ calls' <> []
     | _ => False
     end.
Proof. vm_compute. repeat split; discriminate. Qed.

End handler_facts.

(** ** Routing *)
Module routing_facts.
Import strings strings_facts run_facts ghmcp.

Section Closures.
Context (json : Codec).
Variable client : github.CodespacesClient.

(** The two closures do what the routes say. *)
Lemma collectionHandler_route (w : http.ResponseWriter) (r : http.Request) :
  collectionHandler json client w r
  = serve json client (collectionRoute (http.Method r)) w r.
Proof.
  unfold collectionHandler, collectionRoute.
  destruct (String.eqb (http.Method r) http.MethodGet); [reflexivity |].
  destruct (String.eqb (http.Method r) http.MethodPost); reflexivity.
Qed.

Lemma resourceHandler_route (w : http.ResponseWriter) (r : http.Request) :
  resourceHandler json client w r
  = serve json client (resourceRoute (http.URL r) (http.Method r)) w r.
Proof.
  unfold resourceHandler, resourceRoute.
  destruct (String.eqb (TrimPrefix (http.URL r) "/api/codespaces/") ""); [reflexivity |].
  destruct (HasSuffix _ "/start" && String.eqb (http.Method r) http.MethodPost);
    [reflexivity |].
  destruct (HasSuffix _ "/stop" && String.eqb (http.Method r) http.MethodPost);
    [reflexivity |].
  destruct (String.eqb (http.Method r) http.MethodGet); [reflexivity |].
  destruct (String.eqb (http.Method r) http.MethodDelete); reflexivity.
Qed.

End Closures.

(** A name followed by [/stop] does not end in [/start]. *)
Lemma stop_is_not_start (name : string) : HasSuffix (name +:+ "/stop") "/start" = false.
Proof.
  destruct (HasSuffix (name +:+ "/stop") "/start") eqn:E; [| reflexivity].
  apply HasSuffix_true in E as [other E].
  pose proof (f_equal len E) as Hlen. rewrite !len_append in Hlen.
  unfold len in Hlen. simpl in Hlen.
  assert (Hp : get (4 + String.length name) (name +:+ "/stop") = Some "p"%char)
    by (rewrite <- append_correct2; reflexivity).
  assert (Ht : get (5 + String.length other) (other +:+ "/start") = Some "t"%char)
    by (rewrite <- append_correct2; reflexivity).
  rewrite E in Hp.
  replace (4 + String.length name)%nat with (5 + String.length other)%nat in Hp by lia.
  congruence.
Qed.

(** [Start] is dispatched exactly for a POST whose path, after the
    collection prefix, is the name followed by [/start]. *)
Lemma Start_dispatched (path method name : string) :
  resourceRoute path method = Dispatch (Start name)
  <-> method = "POST" /\ TrimPrefix path "/api/codespaces/" = name +:+ "/start".
Proof.
  unfold resourceRoute. set (rest := TrimPrefix path "/api/codespaces/").
  split.
  - destruct (String.eqb rest ""); [discriminate |].
    destruct (HasSuffix rest "/start") eqn:Hs; simpl.
    + destruct (String.eqb_spec method http.MethodPost) as [->|Hm].
      * intros [= <-]. split; [reflexivity |].
        apply HasSuffix_true in Hs as [n ->]. now rewrite TrimSuffix_append.
      * destruct (HasSuffix rest "/stop"); simpl;
          destruct (String.eqb method http.MethodGet);
          destruct (String.eqb method http.MethodDelete); discriminate.
    + destruct (HasSuffix rest "/stop" && String.eqb method http.MethodPost);
        [discriminate |].
      destruct (String.eqb method http.MethodGet);
        destruct (String.eqb method http.MethodDelete); discriminate.
  - intros [-> Hrest]. rewrite Hrest.
    assert (Hne : String.eqb (name +:+ "/start") "" = false).
    { apply String.eqb_neq. intros E. apply append_empty in E as [_ E]. discriminate. }
    rewrite Hne.
    assert (Hs : HasSuffix (name +:+ "/start") "/start" = true)
      by (apply HasSuffix_true; eauto).
    rewrite Hs. simpl. now rewrite TrimSuffix_append.
Qed.

(** The same for [Stop] and [/stop]. *)
Lemma Stop_dispatched (path method name : string) :
  resourceRoute path method = Dispatch (Stop name)
  <-> method = "POST" /\ TrimPrefix path "/api/codespaces/" = name +:+ "/stop".
Proof.
  unfold resourceRoute. set (rest := TrimPrefix path "/api/codespaces/").
  split.
  - destruct (String.eqb rest ""); [discriminate |].
    destruct (HasSuffix rest "/start" && String.eqb method http.MethodPost);
      [discriminate |].
    destruct (HasSuffix rest "/stop") eqn:Hs; simpl.
    + destruct (String.eqb_spec method http.MethodPost) as [->|Hm].
      * intros [= <-]. split; [reflexivity |].
        apply HasSuffix_true in Hs as [n ->]. now rewrite TrimSuffix_append.
      * destruct (String.eqb method http.MethodGet);
          destruct (String.eqb method http.MethodDelete); discriminate.
    + destruct (String.eqb method http.MethodGet);
        destruct (String.eqb method http.MethodDelete); discriminate.
  - intros [-> Hrest]. rewrite Hrest.
    assert (Hne : String.eqb (name +:+ "/stop") "" = false).
    { apply String.eqb_neq. intros E. apply append_empty in E as [_ E]. discriminate. }
    rewrite Hne, stop_is_not_start. simpl.
    assert (Hs : HasSuffix (name +:+ "/stop") "/stop" = true)
      by (apply HasSuffix_true; eauto).
    rewrite Hs. simpl. now rewrite TrimSuffix_append.
Qed.

Example start_my_cs :
  resourceRoute "/api/codespaces/my-cs/start" "POST" = Dispatch (Start "my-cs").
Proof. reflexivity. Qed.

Example post_bare_name :
  resourceRoute "/api/codespaces/my-cs" "POST"
  = Reject "method not allowed" http.StatusMethodNotAllowed.
Proof. reflexivity. Qed.

(** C3, where the code departs from it: a POST to [/api/codespaces//start]
    has the remainder [/start], which is not empty, so the guard for a
    missing name lets it through; stripping the suffix leaves the empty
    name, and the closure calls [handleStartCodespace] with it.  The same
    holds for [/stop]. *)
Theorem start_stop_with_empty_name (json : Codec) (client : github.CodespacesClient)
    (w : http.ResponseWriter) :
  resourceRoute "/api/codespaces//start" "POST" = Dispatch (Start "")
  /\ resourceRoute "/api/codespaces//stop" "POST" = Dispatch (Stop "")
  /\ resourceHandler json client w (samples.anonymous "POST" "/api/codespaces//start")
     = handleStartCodespace json client w
         (samples.anonymous "POST" "/api/codespaces//start") ""
  /\ resourceHandler json client w (samples.anonymous "POST" "/api/codespaces//stop")
     = handleStopCodespace json client w
         (samples.anonymous "POST" "/api/codespaces//stop") "".
Proof. repeat split; reflexivity. Qed.

(** C7, as the code has it: the collection closure dispatches [List] for
    GET and [Create] for POST and refuses every other method with 405.  The
    resource closure refuses an empty remainder with 400; otherwise, for a
    POST on a remainder that ends in [/start] or [/stop] and is more than
    that suffix, it dispatches [Start] or [Stop] on the name before the
    suffix; otherwise [Get] or [Delete] for GET or DELETE, on the whole
    remainder as the name, whatever it holds; and it refuses everything
    else with 405.  [RegisterCodespacesRoutes] adds the two closures to the
    mux, the first under the path of the collection and the second under
    that path followed by a slash, and each runs the handler of the action
    dispatched or [http.Error] with the refusal. *)
Theorem routes_resolve (path method : string) :
  let rest := TrimPrefix path "/api/codespaces/" in
  ((method = "GET" /\ collectionRoute method = Dispatch List)
   \/ (method = "POST" /\ collectionRoute method = Dispatch Create)
   \/ (method <> "GET" /\ method <> "POST"
       /\ collectionRoute method = Reject "method not allowed" 405))
  /\ ((rest = "" /\ resourceRoute path method = Reject "missing codespace name" 400)
      \/ (rest <> "" /\ method = "POST" /\ HasSuffix rest "/start" = true
          /\ (rest <> "/start" ->
              exists name, name <> "" /\ rest = name +:+ "/start"
                           /\ resourceRoute path method = Dispatch (Start name)))
      \/ (rest <> "" /\ method = "POST" /\ HasSuffix rest "/start" = false
          /\ HasSuffix rest "/stop" = true
          /\ (rest <> "/stop" ->
              exists name, name <> "" /\ rest = name +:+ "/stop"
                           /\ resourceRoute path method = Dispatch (Stop name)))
      \/ (rest <> "" /\ method = "GET" /\ resourceRoute path method = Dispatch (Get rest))
      \/ (rest <> "" /\ method = "DELETE"
          /\ resourceRoute path method = Dispatch (Delete rest))
      \/ (rest <> "" /\ method <> "GET" /\ method <> "DELETE"
          /\ (method = "POST" -> HasSuffix rest "/start" = false
                                 /\ HasSuffix rest "/stop" = false)
          /\ resourceRoute path method = Reject "method not allowed" 405))
  /\ (forall json client mux,
        exists collection resource,
          RegisterCodespacesRoutes json client mux
          = (mux ++ [("/api/codespaces", collection); ("/api/codespaces/", resource)])%list
          /\ (forall w r,
                collection w r = serve json client (collectionRoute (http.Method r)) w r)
          /\ (forall w r,
                resource w r
                = serve json client (resourceRoute (http.URL r) (http.Method r)) w r)).
Proof.
  intros rest. split; [| split].
  - unfold collectionRoute.
    destruct (String.eqb_spec method http.MethodGet) as [->|Hg]; [auto |].
    destruct (String.eqb_spec method http.MethodPost) as [->|Hp]; [auto |].
    right; right. auto.
  - unfold resourceRoute. fold rest.
    destruct (String.eqb_spec rest "") as [He|He]; [auto |].
    destruct (String.eqb_spec method http.MethodPost) as [->|Hp].
    + destruct (HasSuffix rest "/start") eqn:Hs; simpl.
      * right; left. repeat split; [assumption |]. intros Hmore.
        apply HasSuffix_true in Hs as [name Hn]. exists name.
        split; [intros ->; now rewrite append_nil_l in Hn |].
        split; [assumption |]. now rewrite Hn, TrimSuffix_append.
      * destruct (HasSuffix rest "/stop") eqn:Ht; simpl.
        -- right; right; left. repeat split; [assumption |]. intros Hmore.
           apply HasSuffix_true in Ht as [name Hn]. exists name.
           split; [intros ->; now rewrite append_nil_l in Hn |].
           split; [assumption |]. now rewrite Hn, TrimSuffix_append.
        -- do 5 right. split; [assumption |]. repeat split; discriminate.
    + rewrite !andb_false_r.
      destruct (String.eqb_spec method http.MethodGet) as [->|Hg]; [auto 10 |].
      destruct (String.eqb_spec method http.MethodDelete) as [->|Hd]; [auto 10 |].
      do 5 right. split; [assumption |]. split; [assumption |]. split; [assumption |].
      split; [intros ->; now destruct Hp | reflexivity].
  - intros json client mux.
    exists (collectionHandler json client), (resourceHandler json client).
    split; [reflexivity |]. split; intros w r.
    + apply collectionHandler_route.
    + apply resourceHandler_route.
Qed.

(** The claim as worded fails: a GET on a path that ends in an action
    segment is not refused.  The closure takes the whole remainder,
    [my-cs/start], for the name and runs the get handler with it, which
    fetches the scopes, calls the upstream and hands its 200 to the
    caller. *)
Lemma get_with_action_suffix :
  let c := samples.upstream (samples.grants "codespaces") (github.Responds 200 ∅ "{}") in
  let r := samples.inbound "GET" "/api/codespaces/my-cs/start" "Bearer tok" http.NoBody in
  resourceRoute "/api/codespaces/my-cs/start" "GET" = Dispatch (Get "my-cs/start")
  /\ HasSuffix "my-cs/start" "/start" = true
  /\ resourceHandler jsontext.codec c http.NewRecorder r []
     = handleGetCodespace jsontext.codec c http.NewRecorder r "my-cs/start" []
  /\ match resourceHandler jsontext.codec c http.NewRecorder r [] with
     | (Done w', calls') => http.Code w' = Some 200 /\ length calls' = 2%nat
     | _ => False
     end.
Proof. vm_compute. repeat split. Qed.

End routing_facts.

(** ** More on strings: fields, trimming, case *)
Module strings_more.
Import strings strings_facts.

Lemma allBytes_append (p : ascii -> bool) (a b : string) :
  http.allBytes p (a +:+ b) = http.allBytes p a && http.allBytes p b.
Proof.
  induction a as [|c a IH]; [reflexivity |].
  rewrite append_cons. simpl. now rewrite IH, andb_assoc.
Qed.

(** Every field is a run of bytes that are not white space, and is not
    empty. *)
Lemma fieldsFrom_shape (s cur : string) :
  http.allBytes (fun c => negb (isSpace c)) cur = true ->
  Forall (fun p => p <> "" /\ http.allBytes (fun c => negb (isSpace c)) p = true)
         (fieldsFrom cur s).
Proof.
  revert cur. induction s as [|c s IH]; intros cur Hcur; simpl.
  - destruct (String.eqb_spec cur ""); constructor; auto.
  - destruct (isSpace c) eqn:Hc.
    + destruct (String.eqb_spec cur ""); [now apply IH |].
      constructor; [auto | now apply IH].
    + apply IH. rewrite allBytes_append, Hcur. simpl. now rewrite Hc.
Qed.

Lemma Fields_shape (s : string) :
  Forall (fun p => p <> "" /\ http.allBytes (fun c => negb (isSpace c)) p = true)
         (Fields s).
Proof. now apply fieldsFrom_shape. Qed.

(** Lower-casing does not make or unmake white space. *)
Lemma isSpace_toLower (c : ascii) : isSpace (toLower c) = isSpace c.
Proof. destruct c as [[] [] [] [] [] [] [] []]; reflexivity. Qed.

Lemma TrimLeft_ToLower (s : string) : TrimLeft (ToLower s) = ToLower (TrimLeft s).
Proof.
  induction s as [|c s IH]; [reflexivity |]. simpl.
  rewrite isSpace_toLower. destruct (isSpace c); [exact IH | reflexivity].
Qed.

Lemma TrimRight_ToLower (s : string) : TrimRight (ToLower s) = ToLower (TrimRight s).
Proof.
  induction s as [|c s IH]; [reflexivity |]. simpl. rewrite IH.
  destruct (TrimRight s) as [|x t]; simpl; [| reflexivity].
  rewrite isSpace_toLower. now destruct (isSpace c).
Qed.

(** Trimming and lower-casing can be done in either order. *)
Lemma TrimSpace_ToLower (s : string) : TrimSpace (ToLower s) = ToLower (TrimSpace s).
Proof. unfold TrimSpace. now rewrite TrimLeft_ToLower, TrimRight_ToLower. Qed.

Lemma TrimRight_idem (s : string) : TrimRight (TrimRight s) = TrimRight s.
Proof.
  induction s as [|c s IH]; [reflexivity |]. simpl.
  destruct (TrimRight s) as [|x t] eqn:Ht.
  - destruct (isSpace c) eqn:Hc; [reflexivity |]. simpl. now rewrite Hc.
  - change (TrimRight (String c (String x t)))
      with (match TrimRight (String x t) with
            | EmptyString => if isSpace c then EmptyString else String c EmptyString
            | u => String c u
            end).
    now rewrite IH.
Qed.

(** [TrimRight] keeps a first byte that is not white space. *)
Lemma TrimRight_head (c : ascii) (s : string) :
  isSpace c = false -> exists t, TrimRight (String c s) = String c t.
Proof.
  intros Hc. simpl. destruct (TrimRight s); rewrite ?Hc; eauto.
Qed.

Lemma TrimLeft_head (c : ascii) (s : string) :
  isSpace c = false -> TrimLeft (String c s) = String c s.
Proof. intros Hc. simpl. now rewrite Hc. Qed.

Lemma TrimLeft_starts (s : string) :
  match TrimLeft s with
  | String c _ => isSpace c = false
  | EmptyString => True
  end.
Proof.
  induction s as [|c s IH]; simpl; [exact I |].
  destruct (isSpace c) eqn:Hc; [exact IH | exact Hc].
Qed.

(** Trimming what is trimmed changes nothing. *)
Lemma TrimSpace_idem (s : string) : TrimSpace (TrimSpace s) = TrimSpace s.
Proof.
  unfold TrimSpace. pose proof (TrimLeft_starts s) as Hs.
  destruct (TrimLeft s) as [|c u]; [reflexivity |].
  destruct (TrimRight_head c u Hs) as [t Ht]. rewrite Ht.
  rewrite (TrimLeft_head c t Hs), <- Ht. apply TrimRight_idem.
Qed.

(** What holds of every byte of a string holds of every byte of its
    trimmed form. *)
Lemma TrimSpace_allBytes (p : ascii -> bool) (s : string) :
  http.allBytes p s = true -> http.allBytes p (TrimSpace s) = true.
Proof.
  destruct (TrimSpace_frame s) as (l & r & Hs & _ & _).
  intros H. rewrite Hs, !allBytes_append in H.
  apply andb_true_iff in H as [_ H]. now apply andb_true_iff in H as [H _].
Qed.

(** The trimmed form neither starts nor ends with white space. *)
Lemma TrimSpace_ends (s : string) :
  match TrimSpace s with
  | String c _ => isSpace c = false
  | EmptyString => True
  end
  /\ forall t c, TrimSpace s = t +:+ String c "" -> isSpace c = false.
Proof.
  split.
  - unfold TrimSpace. pose proof (TrimLeft_starts s) as Hs.
    destruct (TrimLeft s) as [|c u]; [exact I |].
    destruct (TrimRight_head c u Hs) as [t ->]. exact Hs.
  - intros t c. apply TrimRight_end.
Qed.

End strings_more.

(** ** Tokens, again *)
Module token_more.
Import strings strings_facts strings_more token_facts ghmcp.

(** X1: a token that [extractToken] returns has no white space in it; it
    is empty exactly when the header read is empty, and otherwise it is one
    of the fields of that header. *)
Theorem extractToken_shape (r : http.Request) (auth token : string) :
  (if String.eqb (http.Get (http.Hdr r) "Authorization") ""
   then http.Get (http.Hdr r) "X-Github-Token"
   else http.Get (http.Hdr r) "Authorization") = auth ->
  extractToken r = Done token ->
  (token = "" <-> auth = "")
  /\ http.allBytes (fun c => negb (isSpace c)) token = true
  /\ (auth <> "" -> In token (Fields auth)).
Proof.
  intros Hauth. rewrite (extractToken_fields r auth Hauth).
  destruct (String.eqb_spec auth "") as [->|Hne].
  - intros [= <-]. repeat split; auto. congruence.
  - pose proof (Fields_shape auth) as Hshape.
    destruct (Fields auth) as [|p0 [|p1 parts]]; [discriminate | |]; intros [= <-].
    + apply Forall_inv in Hshape as [Hp Hs].
      repeat split; auto; try congruence. intros _. now left.
    + apply Forall_inv_tail, Forall_inv in Hshape as [Hp Hs].
      repeat split; auto; try congruence. intros _. right. now left.
Qed.

Lemma extractToken_shape_witness :
  let r := {| http.Method := "GET"; http.URL := "/api/codespaces";
              http.Hdr := {[ "X-Github-Token" := ["  token   ghp_abc  extra "] ]};
              http.Body := http.NoBody |} in
  extractToken r = Done "ghp_abc"
  /\ http.allBytes (fun c => negb (isSpace c)) "ghp_abc" = true.
Proof.
  intros r. split; [reflexivity |].
  exact (proj1 (proj2 (extractToken_shape r _ "ghp_abc" eq_refl eq_refl))).
Defined.

End token_more.

(** ** What a handler does, case by case *)
Module trace_facts.
Import strings strings_facts run_facts client_facts gate_facts handler_facts ghmcp.

Section Trace.
Context (json : Codec).
Variable client : github.CodespacesClient.

(** The whole course of a handler: the token, the scope fetch, the gate,
    the inbound body, the action request and its exchange. *)
Lemma perform_trace (a : Action) (w : http.ResponseWriter) (r : http.Request)
    (calls : list http.Request) :
  match extractToken r with
  | Panicked => perform json client a w r calls = (Panicked, calls)
  | Done token =>
      if String.eqb token "" then
        perform json client a w r calls
        = (Done (http.Error w "missing Authorization token" 401), calls)
      else
        exists sreq gate,
          github.newRequest json client "GET" "/" token None = inr sreq
          /\ ensureScopes json client token (Slice ["codespaces"]) calls
             = (Done gate, (calls ++ [sreq])%list)
          /\ match gate with
             | Some (InsufficientScopeError _ _) =>
                 perform json client a w r calls
                 = (Done (http.Error w "insufficient token scopes: requires codespaces" 403),
                    (calls ++ [sreq])%list)
             | Some _ =>
                 perform json client a w r calls
                 = (Done (http.Error w "failed to validate token scopes" 500),
                    (calls ++ [sreq])%list)
             | None =>
                 match actionBody json a r with
                 | None =>
                     perform json client a w r calls
                     = (Done (http.Error w
                                match http.ReadAll (http.Body r) with
                                | inr _ => "invalid request body"
                                | inl _ => "invalid json body"
                                end 400),
                        (calls ++ [sreq])%list)
                 | Some body =>
                     match actionRequest json client a token body with
                     | inl _ =>
                         perform json client a w r calls
                         = (Done (http.Error w "failed to call GitHub" 502),
                            (calls ++ [sreq])%list)
                     | inr areq =>
                         perform json client a w r calls
                         = (match github.HTTPClient client (calls ++ [sreq])%list areq with
                            | github.Responds status hdr bs =>
                                writeProxyResponse w status hdr bs
                            | _ => Done (http.Error w "failed to call GitHub" 502)
                            end,
                            (calls ++ [sreq; areq])%list)
                     end
                 end
             end
  end.
Proof.
  rewrite perform_guarded.
  destruct (extractToken r) as [token|] eqn:Htok.
  - destruct (String.eqb_spec token "") as [->|Hne].
    + unfold guarded, bind, lift. now rewrite Htok.
    + rewrite (guarded_token json client a w r calls token Htok Hne).
      destruct (ensureScopes_calls json client token (Slice ["codespaces"]) calls)
        as (sreq & gate & Hreq & _ & _ & Hrun).
      exists sreq, gate. split; [assumption |]. split; [assumption |].
      run Hrun. destruct gate as [[]|]; try reflexivity.
      destruct (actionBody json a r) as [body|]; [| reflexivity].
      destruct (actionRequest json client a token body) as [e|areq].
      * reflexivity.
      * unfold bind. rewrite send_run, <- app_assoc. simpl.
        destruct (github.HTTPClient client (calls ++ [sreq])%list areq); reflexivity.
  - unfold guarded, bind, lift. now rewrite Htok.
Qed.

(** X2: a handler never issues more than two upstream calls and keeps the
    calls made before it.  The first is the scope fetch, made with the
    token of the request; the action request comes second, and only when
    the gate has passed on that fetch and the inbound body was accepted. *)
Theorem calls_in_order (a : Action) (w : http.ResponseWriter) (r : http.Request)
    (calls : list http.Request) :
  let calls' := snd (perform json client a w r calls) in
  calls' = calls
  \/ exists token sreq,
       extractToken r = Done token /\ token <> ""
       /\ github.newRequest json client "GET" "/" token None = inr sreq
       /\ (calls' = (calls ++ [sreq])%list
           \/ exists body areq,
                ensureScopes json client token (Slice ["codespaces"]) calls
                = (Done None, (calls ++ [sreq])%list)
                /\ actionBody json a r = Some body
                /\ actionRequest json client a token body = inr areq
                /\ calls' = (calls ++ [sreq; areq])%list).
Proof.
  intros calls'. subst calls'. pose proof (perform_trace a w r calls) as H.
  destruct (extractToken r) as [token|] eqn:Htok; [| rewrite H; now left].
  destruct (String.eqb_spec token "") as [Hempty|Hne]; [rewrite H; now left |].
  destruct H as (sreq & gate & Hreq & Hgate & H).
  right. exists token, sreq. repeat split; try assumption.
  destruct gate as [[]|]; try (rewrite H; now left).
  destruct (actionBody json a r) as [body|]; [| rewrite H; now left].
  destruct (actionRequest json client a token body) as [e|areq] eqn:Hareq;
    [rewrite H; now left |].
  right. exists body, areq. rewrite H. auto.
Qed.


(** X4: when the upstream answers the action request, the header map of
    the writer gains [Content-Type] and nothing else: no other header of
    the upstream response reaches the caller. *)
Theorem only_content_type_crosses (a : Action) (w : http.ResponseWriter)
    (r : http.Request) (calls : list http.Request) (w' : http.ResponseWriter)
    (sreq areq : http.Request) (status : Z) (hdr : http.Header) (bs : string) :
  perform json client a w r calls = (Done w', (calls ++ [sreq; areq])%list) ->
  github.HTTPClient client (calls ++ [sreq])%list areq = github.Responds status hdr bs ->
  http.WHeader w'
  = <[ "Content-Type" :=
         [if String.eqb (http.Get hdr "Content-Type") "" then "application/json"
          else http.Get hdr "Content-Type"] ]> (http.WHeader w).
Proof.
  intros Hrun Hex. pose proof (perform_trace a w r calls) as H.
  assert (Hnone : forall o, perform json client a w r calls = (o, calls) -> False).
  { intros o Ho. rewrite Ho in Hrun. injection Hrun as _ Hc.
    apply (f_equal (@length _)) in Hc. rewrite length_app in Hc. simpl in Hc. lia. }
  assert (Hone : forall o x, perform json client a w r calls = (o, (calls ++ [x])%list) ->
                             False).
  { intros o x Ho. rewrite Ho in Hrun. injection Hrun as _ Hc.
    apply app_inv_head in Hc. discriminate. }
  destruct (extractToken r) as [token|]; [| now apply Hnone in H].
  destruct (String.eqb token ""); [now apply Hnone in H |].
  destruct H as (sreq' & gate & _ & _ & H).
  destruct gate as [[]|]; try (now apply Hone in H).
  destruct (actionBody json a r) as [body|]; [| now apply Hone in H].
  destruct (actionRequest json client a token body) as [e|areq'];
    [now apply Hone in H |].
  rewrite H in Hrun. injection Hrun as Hw Hc.
  apply app_inv_head in Hc. injection Hc as -> ->.
  rewrite Hex in Hw.
  unfold writeProxyResponse, http.WriteHeader in Hw.
  destruct (String.eqb (http.Get hdr "Content-Type") ""); simpl in Hw;
    (destruct (http.Code w) eqn:Hcode;
     [| destruct (http.checkWriteHeaderCode status); [| discriminate]];
     injection Hw as <-;
     unfold http.Write, http.setStatus, http.SetHeader, http.Set_;
     destruct bs; simpl; rewrite ?Hcode; reflexivity).
Qed.

End Trace.

Lemma only_content_type_crosses_witness :
  let hdr : http.Header :=
    {[ "Content-Type" := ["application/json; charset=utf-8"];
       "X-Ratelimit-Remaining" := ["4999"];
       "Link" := ["<https://api.github.com/user/codespaces?page=2>; rel=next"] ]} in
  let c := samples.upstream (samples.grants "codespaces") (github.Responds 200 hdr "[]") in
  let r := samples.inbound "GET" "/api/codespaces" "Bearer tok" http.NoBody in
  exists w' calls',
    perform jsontext.codec c List http.NewRecorder r [] = (Done w', calls')
    /\ http.WHeader w' = {[ "Content-Type" := ["application/json; charset=utf-8"] ]}.
Proof.
  intros hdr c r.
  eexists. eexists. split; [reflexivity |].
  exact (only_content_type_crosses jsontext.codec c List http.NewRecorder r [] _ _ _
           200 hdr "[]" eq_refl eq_refl).
Defined.

End trace_facts.

(** ** The requests sent upstream *)
Module request_facts.
Import strings strings_facts run_facts client_facts gate_facts handler_facts trace_facts ghmcp.

Lemma Get_Set_ne (h : http.Header) (key key' value : string) :
  http.CanonicalMIMEHeaderKey key <> http.CanonicalMIMEHeaderKey key' ->
  http.Get (http.Set_ h key value) key' = http.Get h key'.
Proof.
  intros Hne. unfold http.Get, http.Set_. now rewrite lookup_insert_ne.
Qed.

Lemma Get_empty (key : string) : http.Get ∅ key = "".
Proof. unfold http.Get. now rewrite lookup_empty. Qed.

Section Requests.
Context (json : Codec).
Variable client : github.CodespacesClient.

(** The headers of a request that [newRequest] builds. *)
Lemma newRequest_headers (method path token : string) (body : option (value json))
    (req : http.Request) :
  github.newRequest json client method path token body = inr req ->
  http.Get (http.Hdr req) "Accept" = "application/vnd.github+json;apiVersion=2022-11-28"
  /\ http.Get (http.Hdr req) "User-Agent" = github.UserAgent client
  /\ http.Get (http.Hdr req) "Authorization"
     = (if String.eqb token "" then "" else "token " +:+ token)
  /\ http.Get (http.Hdr req) "Content-Type"
     = match body with Some _ => "application/json" | None => "" end.
Proof.
  unfold github.newRequest.
  destruct body as [v|]; [destruct (Marshal json v); [| discriminate] |];
    intros [= <-]; simpl; destruct (String.eqb token "");
    repeat split;
    repeat first [ apply Get_Set
                 | rewrite Get_Set_ne by (vm_compute; discriminate)
                 | apply Get_empty ].
Qed.

(** X5: every upstream request that a handler issues carries the token of
    the inbound request as [Authorization: token <token>], whatever form
    the caller used, together with the pinned [Accept] header and the
    client's [User-Agent]. *)
Theorem token_forwarded (a : Action) (w : http.ResponseWriter) (r : http.Request)
    (calls : list http.Request) (req : http.Request) :
  In req (snd (perform json client a w r calls)) ->
  In req calls
  \/ exists token,
       extractToken r = Done token /\ token <> ""
       /\ http.Get (http.Hdr req) "Authorization" = "token " +:+ token
       /\ http.Get (http.Hdr req) "Accept"
          = "application/vnd.github+json;apiVersion=2022-11-28"
       /\ http.Get (http.Hdr req) "User-Agent" = github.UserAgent client.
Proof.
  intros Hin. pose proof (perform_trace json client a w r calls) as H.
  destruct (extractToken r) as [token|]; [| rewrite H in Hin; now left].
  destruct (String.eqb_spec token "") as [Hempty|Hne]; [rewrite H in Hin; now left |].
  destruct H as (sreq & gate & Hsreq & _ & H).
  pose (P := fun q : http.Request =>
          exists t, Done token = Done t /\ t <> ""
                    /\ http.Get (http.Hdr q) "Authorization" = "token " +:+ t
                    /\ http.Get (http.Hdr q) "Accept"
                       = "application/vnd.github+json;apiVersion=2022-11-28"
                    /\ http.Get (http.Hdr q) "User-Agent" = github.UserAgent client).
  change (In req calls \/ P req).
  assert (Hhdr : forall method path body q,
             github.newRequest json client method path token body = inr q -> P q).
  { intros method path body q Hq.
    destruct (newRequest_headers method path token body q Hq) as (Ha & Hu & Ht & _).
    exists token. apply String.eqb_neq in Hne. rewrite Hne in Ht.
    apply String.eqb_neq in Hne. auto. }
  assert (Hone : forall o, perform json client a w r calls = (o, (calls ++ [sreq])%list) ->
                           In req calls \/ P req).
  { intros o Ho. rewrite Ho in Hin. simpl in Hin.
    apply in_app_or in Hin as [Hc | [<- | []]]; [now left | right].
    exact (Hhdr _ _ _ _ Hsreq). }
  destruct gate as [[]|]; try (now apply Hone in H).
  destruct (actionBody json a r) as [body|]; [| now apply Hone in H].
  destruct (actionRequest json client a token body) as [e|areq] eqn:Hareq;
    [now apply Hone in H |].
  rewrite H in Hin. simpl in Hin.
  apply in_app_or in Hin as [Hc | [<- | [<- | []]]].
  - now left.
  - right. exact (Hhdr _ _ _ _ Hsreq).
  - right. destruct a; exact (Hhdr _ _ _ _ Hareq).
Qed.

End Requests.

Lemma token_forwarded_witness :
  let c := samples.upstream (samples.grants "codespaces") samples.notFound in
  let r := samples.inbound "POST" "/api/codespaces/my-cs/start" "Bearer tok" http.NoBody in
  let req := nth 1 (snd (perform jsontext.codec c (Start "my-cs") http.NewRecorder r [])) r in
  http.URL req = "https://api.github.com/user/codespaces/my-cs/start"
  /\ http.Get (http.Hdr req) "Authorization" = "token tok".
Proof.
  intros c r req. split; [reflexivity |].
  destruct (token_forwarded jsontext.codec c (Start "my-cs") http.NewRecorder r [] req)
    as [[] | (token & Htok & _ & Hauth & _)].
  - right. left. reflexivity.
  - assert (E : extractToken r = Done "tok") by reflexivity.
    rewrite E in Htok. injection Htok as <-. exact Hauth.
Defined.

End request_facts.

(** ** The body of a create request *)
Module create_facts.
Import strings strings_facts run_facts client_facts gate_facts handler_facts trace_facts
       request_facts ghmcp.

Section Create.
Context (json : Codec).
Variable client : github.CodespacesClient.

Lemma create_trace (w : http.ResponseWriter) (r : http.Request)
    (calls calls1 : list http.Request) (token : string) :
  extractToken r = Done token -> token <> "" ->
  ensureScopes json client token (Slice ["codespaces"]) calls = (Done None, calls1) ->
  match actionBody json Create r with
  | None =>
      handleCreateCodespace json client w r calls
      = (Done (http.Error w
                 match http.ReadAll (http.Body r) with
                 | inr _ => "invalid request body"
                 | inl _ => "invalid json body"
                 end 400), calls1)
  | Some body =>
      match github.newRequest json client "POST" "/user/codespaces" token body with
      | inl _ =>
          handleCreateCodespace json client w r calls
          = (Done (http.Error w "failed to call GitHub" 502), calls1)
      | inr areq =>
          snd (handleCreateCodespace json client w r calls) = (calls1 ++ [areq])%list
      end
  end.
Proof.
  intros Htok Hne Hgate.
  change (handleCreateCodespace json client w r) with (perform json client Create w r).
  pose proof (perform_trace json client Create w r calls) as H.
  rewrite Htok in H. apply String.eqb_neq in Hne. rewrite Hne in H.
  destruct H as (sreq & gate & _ & Hgate' & H).
  rewrite Hgate in Hgate'. injection Hgate' as <- ->.
  destruct (actionBody json Create r) as [body|]; [| exact H].
  change (actionRequest json client Create token body)
    with (github.newRequest json client "POST" "/user/codespaces" token body) in H.
  destruct (github.newRequest json client "POST" "/user/codespaces" token body);
    [exact H |].
  rewrite H. simpl. now rewrite <- app_assoc.
Qed.

(** X6: once the token is there and the gate has passed, the create
    handler sends upstream what the inbound body decodes to, encoded anew
    and marked [application/json].  An empty inbound body, or one that
    decodes to [nil], gives a create request without body and without
    [Content-Type].  A value that cannot be encoded gives 502 without any
    create request, and a body that cannot be read gives 400. *)
Theorem create_body_forwarded (w : http.ResponseWriter) (r : http.Request)
    (calls calls1 : list http.Request) (token : string) :
  extractToken r = Done token -> token <> "" ->
  ensureScopes json client token (Slice ["codespaces"]) calls = (Done None, calls1) ->
  (forall bs,
      http.ReadAll (http.Body r) = inl bs ->
      bs = "" \/ Unmarshal json bs = Some None ->
      exists areq,
        snd (handleCreateCodespace json client w r calls) = (calls1 ++ [areq])%list
        /\ http.Method areq = "POST"
        /\ http.URL areq = github.BaseURL client +:+ "/user/codespaces"
        /\ http.Body areq = http.NoBody
        /\ http.Get (http.Hdr areq) "Content-Type" = "")
  /\ (forall bs v enc,
        http.ReadAll (http.Body r) = inl bs -> bs <> "" ->
        Unmarshal json bs = Some (Some v) -> Marshal json v = Some enc ->
        exists areq,
          snd (handleCreateCodespace json client w r calls) = (calls1 ++ [areq])%list
          /\ http.Method areq = "POST"
          /\ http.URL areq = github.BaseURL client +:+ "/user/codespaces"
          /\ http.Body areq = http.Bytes enc
          /\ http.Get (http.Hdr areq) "Content-Type" = "application/json")
  /\ (forall bs v,
        http.ReadAll (http.Body r) = inl bs -> bs <> "" ->
        Unmarshal json bs = Some (Some v) -> Marshal json v = None ->
        handleCreateCodespace json client w r calls
        = (Done (http.Error w "failed to call GitHub" 502), calls1))
  /\ (forall e,
        http.ReadAll (http.Body r) = inr e ->
        handleCreateCodespace json client w r calls
        = (Done (http.Error w "invalid request body" 400), calls1)).
Proof.
  intros Htok Hne Hgate.
  pose proof (create_trace w r calls calls1 token Htok Hne Hgate) as H.
  unfold actionBody in H. repeat split.
  - intros bs Hread Hnil. rewrite Hread in H.
    assert (Hbody : (if (0 <? len bs)%nat then Unmarshal json bs else Some None)
                    = Some None)
      by (destruct Hnil as [-> | Hn]; [reflexivity | destruct (0 <? len bs)%nat; auto]).
    rewrite Hbody in H.
    destruct (github.newRequest json client "POST" "/user/codespaces" token None)
      as [e|areq] eqn:Hreq; [discriminate |].
    exists areq. split; [exact H |].
    destruct (newRequest_headers json client _ _ _ _ _ Hreq) as (_ & _ & _ & Hct).
    injection Hreq as <-. auto.
  - intros bs v enc Hread Hbs Hdec Henc. rewrite Hread in H.
    assert (Hlen : (0 <? len bs)%nat = true) by (destruct bs; [congruence | reflexivity]).
    rewrite Hlen, Hdec in H.
    destruct (github.newRequest json client "POST" "/user/codespaces" token (Some v))
      as [e|areq] eqn:Hreq;
      [unfold github.newRequest in Hreq; rewrite Henc in Hreq; discriminate |].
    exists areq. split; [exact H |].
    destruct (newRequest_headers json client _ _ _ _ _ Hreq) as (_ & _ & _ & Hct).
    unfold github.newRequest in Hreq. rewrite Henc in Hreq. injection Hreq as <-. auto.
  - intros bs v Hread Hbs Hdec Henc. rewrite Hread in H.
    assert (Hlen : (0 <? len bs)%nat = true) by (destruct bs; [congruence | reflexivity]).
    rewrite Hlen, Hdec in H. unfold github.newRequest in H. now rewrite Henc in H.
  - intros e Hread. now rewrite Hread in H.
Qed.

End Create.

Lemma create_body_forwarded_witness :
  let c := samples.upstream (samples.grants "codespaces") samples.notFound in
  let text := "{ " +:+ jsontext.quoted "machine" +:+ " : "
              +:+ jsontext.quoted "basicLinux32gb" +:+ " }" in
  let r := samples.inbound "POST" "/api/codespaces" "Bearer tok" (http.Bytes text) in
  exists areq,
    snd (handleCreateCodespace jsontext.codec c http.NewRecorder r [])
    = [nth 0 (snd (handleCreateCodespace jsontext.codec c http.NewRecorder r [])) r; areq]
    /\ http.Body areq
       = http.Bytes ("{" +:+ jsontext.quoted "machine" +:+ ":"
                     +:+ jsontext.quoted "basicLinux32gb" +:+ "}").
Proof.
  intros c text r.
  destruct (proj1 (proj2 (create_body_forwarded jsontext.codec c http.NewRecorder r [] _
                            "tok" eq_refl ltac:(discriminate) eq_refl))
                  text _ _ eq_refl ltac:(discriminate) eq_refl eq_refl)
    as (areq & Hcalls & _ & _ & Hbody & _).
  exists areq. split; [| exact Hbody].
  rewrite Hcalls. reflexivity.
Defined.

End create_facts.

(** ** Scopes, from the header to the gate *)
Module scope_facts.
Import strings strings_facts strings_more run_facts client_facts gate_facts ghmcp.

Lemma splitFrom_length (sep : ascii) (s cur : string) :
  length (splitFrom sep cur s)
  = S (count_occ ascii_dec (list_ascii_of_string s) sep).
Proof.
  revert cur. induction s as [|c s IH]; intros cur; [reflexivity |].
  cbn [splitFrom list_ascii_of_string]. destruct (Ascii.eqb_spec c sep) as [->|Hne].
  - rewrite count_occ_cons_eq by reflexivity. simpl. now rewrite IH.
  - rewrite count_occ_cons_neq by assumption. apply IH.
Qed.

(** X7: the gate accepts only what the comparison of the specification
    accepts: when it passes, every required scope equals some granted scope
    once both are trimmed and lower-cased. *)
Theorem gate_sound (scopes required : slice string) (r : string) :
  checkScopes scopes required = None ->
  In r (elems required) ->
  exists g, In g (elems scopes)
            /\ ToLower (TrimSpace g) = ToLower (TrimSpace r).
Proof.
  intros Hpass Hr.
  destruct (proj1 (checkScopes_None scopes required) Hpass r Hr) as (g & Hg & E).
  exists g. split; [assumption |].
  rewrite <- (TrimSpace_ToLower r), <- E, (TrimSpace_ToLower (TrimSpace g)).
  now rewrite TrimSpace_idem.
Qed.

Lemma gate_sound_witness :
  exists g, In g ["repo"; " CodeSpaces "]
            /\ ToLower (TrimSpace g) = ToLower (TrimSpace "CODESPACES").
Proof.
  exact (gate_sound (Slice ["repo"; " CodeSpaces "]) (Slice ["CODESPACES"]) "CODESPACES"
           eq_refl (or_introl eq_refl)).
Defined.

(** X8: the gate looks at the scopes as sets.  Granting more, in any order
    and any number of times, or requiring less, never turns a pass into a
    refusal; and nothing required always passes. *)
Theorem gate_monotone (scopes scopes' required required' : slice string) :
  (forall g, In g (elems scopes) -> In g (elems scopes')) ->
  (forall r, In r (elems required') -> In r (elems required)) ->
  (checkScopes scopes required = None -> checkScopes scopes' required' = None)
  /\ checkScopes scopes nil_slice = None
  /\ checkScopes scopes (Slice []) = None.
Proof.
  intros Hg Hr. split; [| split].
  - rewrite !checkScopes_None. intros H r Hin.
    destruct (H r (Hr r Hin)) as (g & Hin' & E). eauto.
  - apply checkScopes_None. intros r [].
  - apply checkScopes_None. intros r [].
Qed.

Lemma gate_monotone_witness :
  checkScopes (Slice ["gist"; "codespaces"; "repo"; "codespaces"]) (Slice ["codespaces"])
  = None.
Proof.
  refine (proj1 (gate_monotone (Slice ["codespaces"]) _
                   (Slice ["codespaces"; "Codespaces"]) _ _ _) eq_refl).
  - intros g [<- | []]. right. left. reflexivity.
  - intros r [<- | []]. left. reflexivity.
Defined.

Section Scopes.
Context (json : Codec).
Variable client : github.CodespacesClient.

(** X9: on a response below 400 whose scope header is not empty,
    [GetTokenScopes] returns one entry more than the header has commas; no
    entry holds a comma, and none has white space around it.  (An entry can
    be empty: two commas in a row, or a comma at an end, give one.) *)
Theorem scope_entries (token : string) (calls : list http.Request) (req : http.Request)
    (status : Z) (hdr : http.Header) (body : string) :
  github.newRequest json client "GET" "/" token None = inr req ->
  github.HTTPClient client calls req = github.Responds status hdr body ->
  status < 400 ->
  http.Get hdr "X-OAuth-Scopes" <> "" ->
  exists scopes,
    github.GetTokenScopes json client token calls
    = (Done (Slice scopes, None), (calls ++ [req])%list)
    /\ length scopes
       = S (count_occ ascii_dec
              (list_ascii_of_string (http.Get hdr "X-OAuth-Scopes")) ","%char)
    /\ Forall (fun s => http.allBytes (fun c => negb (Ascii.eqb c ",")) s = true
                        /\ TrimSpace s = s) scopes.
Proof.
  intros Hreq Hex Hs Hraw.
  rewrite (GetTokenScopes_run json client token calls req Hreq), Hex.
  assert ((status >=? 400) = false) as -> by (rewrite Z.geb_leb; apply Z.leb_gt; lia).
  apply String.eqb_neq in Hraw. rewrite Hraw.
  eexists. split; [reflexivity |]. split.
  - rewrite length_map. apply splitFrom_length.
  - apply Stdlib.Lists.List.Forall_map.
    eapply Stdlib.Lists.List.Forall_impl; [| apply Split_free].
    intros piece Hp. simpl. split; [now apply TrimSpace_allBytes | apply TrimSpace_idem].
Qed.

(** X10: from the header to the gate.  When the upstream answers the scope
    request below 400, the gate for [codespaces] passes exactly when one of
    the comma-separated pieces of [X-OAuth-Scopes] is [codespaces] up to case and
    surrounding white space; otherwise it returns [InsufficientScopeError].
    A response without the header is refused, with no scope granted. *)
Theorem gate_from_header (token : string) (calls : list http.Request) (req : http.Request)
    (status : Z) (hdr : http.Header) (body : string) :
  github.newRequest json client "GET" "/" token None = inr req ->
  github.HTTPClient client calls req = github.Responds status hdr body ->
  status < 400 ->
  let raw := http.Get hdr "X-OAuth-Scopes" in
  let gate := ensureScopes json client token (Slice ["codespaces"]) calls in
  (gate = (Done None, (calls ++ [req])%list)
   <-> exists piece, In piece (Split raw ",") /\ ToLower (TrimSpace piece) = "codespaces")
  /\ (gate = (Done None, (calls ++ [req])%list)
      \/ exists granted,
           gate = (Done (Some (InsufficientScopeError (Slice ["codespaces"]) granted)),
                   (calls ++ [req])%list))
  /\ (raw = "" ->
      gate = (Done (Some (InsufficientScopeError (Slice ["codespaces"]) (Slice []))),
              (calls ++ [req])%list)).
Proof.
  intros Hreq Hex Hs raw gate. subst gate.
  rewrite (ensureScopes_run json client token _ calls req Hreq), Hex.
  assert ((status >=? 400) = false) as -> by (rewrite Z.geb_leb; apply Z.leb_gt; lia).
  fold raw. destruct (String.eqb_spec raw "") as [Hraw|Hraw].
  - rewrite Hraw. split; [| split].
    + split; [discriminate |]. intros (piece & [<- | []] & E). discriminate.
    + right. eexists. reflexivity.
    + reflexivity.
  - set (scopes := Slice (map TrimSpace (Split raw ","))).
    assert (Hiff : checkScopes scopes (Slice ["codespaces"]) = None
                   <-> exists piece, In piece (Split raw ",")
                                     /\ ToLower (TrimSpace piece) = "codespaces").
    { rewrite checkScopes_None. split.
      - intros H. destruct (H "codespaces" (or_introl eq_refl)) as (g & Hg & E).
        simpl in Hg. apply in_map_iff in Hg as (piece & <- & Hp).
        exists piece. split; [assumption |]. now rewrite TrimSpace_idem in E.
      - intros (piece & Hp & E) r [<- | []].
        exists (TrimSpace piece). split; [simpl; now apply in_map |].
        now rewrite TrimSpace_idem. }
    split; [| split].
    + rewrite <- Hiff. split; [now intros [= ->] | now intros ->].
    + destruct (checkScopes scopes (Slice ["codespaces"])) as [e|] eqn:E; [| now left].
      right. rewrite (checkScopes_Some _ _ _ E). eauto.
    + contradiction.
Qed.

End Scopes.

Lemma scope_entries_witness :
  let c := samples.upstream (samples.grants "repo,, codespaces ,") samples.notFound in
  exists scopes,
    github.GetTokenScopes jsontext.codec c "tok" [] = (Done (Slice scopes, None),
       snd (github.GetTokenScopes jsontext.codec c "tok" []))
    /\ length scopes = 4%nat.
Proof.
  intros c.
  destruct (scope_entries jsontext.codec c "tok" [] _ 200 _ "{}" eq_refl eq_refl
              eq_refl ltac:(discriminate))
    as (scopes & Hrun & Hlen & _).
  exists scopes. split; [| exact Hlen].
  rewrite Hrun. reflexivity.
Defined.

Lemma gate_from_header_witness :
  let c := samples.upstream (samples.grants "repo, CodeSpaces") samples.notFound in
  fst (ensureScopes jsontext.codec c "tok" (Slice ["codespaces"]) []) = Done None.
Proof.
  intros c.
  refine (f_equal fst
    (proj2 (proj1 (gate_from_header jsontext.codec c "tok" [] _ 200 _ "{}"
                     eq_refl eq_refl eq_refl)) _)).
  exists " CodeSpaces". split; [right; left; reflexivity | reflexivity].
Defined.

End scope_facts.

(** ** Resource names on their way upstream *)
Module path_facts.
Import strings strings_facts strings_more run_facts routing_facts ghmcp.

Lemma append_inv_head (a b c : string) : a +:+ b = a +:+ c -> b = c.
Proof.
  induction a as [|x a IH]; [auto |]. rewrite !append_cons. intros [= H]. auto.
Qed.

Lemma append_inv_tail (a b c : string) : a +:+ c = b +:+ c -> a = b.
Proof.
  revert b. induction a as [|x a IH]; intros b H.
  - destruct b as [|y b]; [reflexivity |].
    apply (f_equal len) in H. rewrite !len_append in H. simpl in H. lia.
  - destruct b as [|y b].
    + apply (f_equal len) in H. rewrite !len_append in H. simpl in H. lia.
    + rewrite !append_cons in H. injection H as -> H. f_equal. auto.
Qed.

(** The two digits that stand for a byte are letters or digits. *)
Lemma hexDigit_plain (k : nat) : github.shouldEscape (github.hexDigit k) = false.
Proof. do 16 (destruct k as [|k]; [reflexivity |]). reflexivity. Qed.

Lemma hexDigit_inj (a b : nat) :
  (a < 16)%nat -> (b < 16)%nat -> github.hexDigit a = github.hexDigit b -> a = b.
Proof.
  intros Ha Hb.
  do 16 (destruct a as [|a]; [do 16 (destruct b as [|b]; [reflexivity || discriminate |]); lia |]).
  lia.
Qed.

Lemma escaped_byte_inj (c d : ascii) :
  github.hexDigit (nat_of_ascii c / 16) = github.hexDigit (nat_of_ascii d / 16) ->
  github.hexDigit (nat_of_ascii c mod 16) = github.hexDigit (nat_of_ascii d mod 16) ->
  c = d.
Proof.
  intros Hhi Hlo.
  pose proof (nat_ascii_bounded c) as Hc. pose proof (nat_ascii_bounded d) as Hd.
  apply hexDigit_inj in Hhi;
    [| apply Nat.Div0.div_lt_upper_bound; lia | apply Nat.Div0.div_lt_upper_bound; lia].
  apply hexDigit_inj in Hlo; [| apply Nat.mod_upper_bound; lia ..].
  rewrite <- (ascii_nat_embedding c), <- (ascii_nat_embedding d). f_equal.
  rewrite (Nat.div_mod_eq (nat_of_ascii c) 16), (Nat.div_mod_eq (nat_of_ascii d) 16).
  now rewrite Hhi, Hlo.
Qed.

(** Names made of bytes that need no escaping are left as they are. *)
Lemma PathEscape_plain (s : string) :
  http.allBytes (fun c => negb (github.shouldEscape c)) s = true ->
  github.PathEscape s = s.
Proof.
  induction s as [|c s IH]; [reflexivity |]. simpl. intros H.
  apply andb_true_iff in H as [Hc Hs]. apply negb_true_iff in Hc.
  now rewrite Hc, IH.
Qed.

Lemma PathEscape_inj (s t : string) :
  github.PathEscape s = github.PathEscape t -> s = t.
Proof.
  revert t. induction s as [|c s IH]; intros [|d t]; simpl.
  - reflexivity.
  - destruct (github.shouldEscape d); discriminate.
  - destruct (github.shouldEscape c); discriminate.
  - destruct (github.shouldEscape c) eqn:Hc, (github.shouldEscape d) eqn:Hd.
    + intros [= Hhi Hlo Hrest]. f_equal; [now apply escaped_byte_inj | now apply IH].
    + intros [= <- _]. discriminate.
    + intros [= -> _]. discriminate.
    + intros [= -> Hrest]. f_equal. now apply IH.
Qed.

Lemma allBytes_impl (p q : ascii -> bool) (s : string) :
  (forall c, p c = true -> q c = true) ->
  http.allBytes p s = true -> http.allBytes q s = true.
Proof.
  intros Hpq. induction s as [|c s IH]; [reflexivity |]. simpl. intros H.
  apply andb_true_iff in H as [Hc Hs]. now rewrite (Hpq c Hc), IH.
Qed.

Lemma PathEscape_bytes (s : string) :
  http.allBytes (fun c => negb (github.shouldEscape c) || Ascii.eqb c "%")
                (github.PathEscape s) = true.
Proof.
  induction s as [|c s IH]; [reflexivity |]. simpl.
  destruct (github.shouldEscape c) eqn:Hc; simpl.
  - now rewrite !hexDigit_plain, IH.
  - now rewrite Hc, IH.
Qed.

(** X11: the segment that stands for a resource name in an upstream path
    holds no byte that [url.PathEscape] escapes (so no slash, question
    mark, number sign or space) other than the percent signs it puts
    there; names without such bytes are kept as they are; and two names
    with the same segment are the same name. *)
Theorem name_is_one_segment (name : string) :
  http.allBytes (fun c => negb (github.shouldEscape c) || Ascii.eqb c "%")
                (github.PathEscape name) = true
  /\ http.allBytes (fun c => negb (existsb (Ascii.eqb c) ["/"; "?"; "#"; " "]%char))
                   (github.PathEscape name) = true
  /\ (http.allBytes (fun c => negb (github.shouldEscape c)) name = true ->
      github.PathEscape name = name)
  /\ (forall other, github.PathEscape name = github.PathEscape other -> name = other).
Proof.
  repeat split.
  - apply PathEscape_bytes.
  - apply (allBytes_impl (fun c => negb (github.shouldEscape c) || Ascii.eqb c "%")).
    + intros c. destruct c as [[] [] [] [] [] [] [] []]; intros H;
        first [reflexivity | discriminate H].
    + apply PathEscape_bytes.
  - apply PathEscape_plain.
  - apply PathEscape_inj.
Qed.

Section Paths.
Context (json : Codec).

Lemma Get_dispatched (name method : string) :
  name <> "" -> method = "GET" \/ method = "DELETE" ->
  resourceRoute ("/api/codespaces/" +:+ name) method
  = Dispatch (if String.eqb method "GET" then Get name else Delete name).
Proof.
  intros Hne Hm. unfold resourceRoute. rewrite TrimPrefix_append.
  apply String.eqb_neq in Hne. rewrite Hne.
  destruct Hm as [-> | ->]; simpl; rewrite !andb_false_r; reflexivity.
Qed.

(** X12: the route table, end to end, for a name made of letters, digits
    and [-_~$&+:=@].  GET and DELETE on [/api/codespaces/{name}] and POST on
    [/api/codespaces/{name}/start] and [.../stop] dispatch the action on
    [name], and the request of that action goes, with the same method, to
    [https://api.github.com/user/codespaces/{name}], followed by [/start]
    or [/stop] for these two. *)
Theorem plain_name_routes
    (httpClient : list http.Request -> http.Request -> github.Exchange)
    (token name : string) :
  name <> "" ->
  http.allBytes (fun c => negb (github.shouldEscape c) && negb (Ascii.eqb c ".")) name
  = true ->
  let c := github.NewCodespacesClient httpClient in
  let sent (a : Action) (method url : string) :=
    exists req, actionRequest json c a token None = inr req
                /\ http.Method req = method /\ http.URL req = url
                /\ http.Body req = http.NoBody in
  (resourceRoute ("/api/codespaces/" +:+ name) "GET" = Dispatch (Get name)
   /\ sent (Get name) "GET" ("https://api.github.com/user/codespaces/" +:+ name))
  /\ (resourceRoute ("/api/codespaces/" +:+ name) "DELETE" = Dispatch (Delete name)
      /\ sent (Delete name) "DELETE" ("https://api.github.com/user/codespaces/" +:+ name))
  /\ (resourceRoute ("/api/codespaces/" +:+ name +:+ "/start") "POST"
      = Dispatch (Start name)
      /\ sent (Start name) "POST"
              ("https://api.github.com/user/codespaces/" +:+ name +:+ "/start"))
  /\ (resourceRoute ("/api/codespaces/" +:+ name +:+ "/stop") "POST"
      = Dispatch (Stop name)
      /\ sent (Stop name) "POST"
              ("https://api.github.com/user/codespaces/" +:+ name +:+ "/stop")).
Proof.
  intros Hne Hplain c sent.
  assert (Hesc : github.PathEscape name = name).
  { apply PathEscape_plain. clear Hne. induction name as [|x name IH]; [reflexivity |].
    simpl in *. apply andb_true_iff in Hplain as [Hx Hrest].
    apply andb_true_iff in Hx as [Hx _]. now rewrite Hx, IH. }
  subst sent. unfold actionRequest, github.newRequest. simpl github.BaseURL.
  rewrite Hesc. repeat split.
  - apply (Get_dispatched name "GET"); auto.
  - eexists. repeat split.
  - apply (Get_dispatched name "DELETE"); auto.
  - eexists. repeat split.
  - apply Start_dispatched. split; [reflexivity |]. apply TrimPrefix_append.
  - eexists. repeat split.
  - apply Stop_dispatched. split; [reflexivity |]. apply TrimPrefix_append.
  - eexists. repeat split.
Qed.

End Paths.

Lemma plain_name_routes_witness :
  resourceRoute "/api/codespaces/my-cs_01/stop" "POST" = Dispatch (Stop "my-cs_01")
  /\ exists req,
       actionRequest jsontext.codec
         (samples.upstream (samples.grants "codespaces") samples.notFound)
         (Stop "my-cs_01") "tok" None = inr req
       /\ http.Method req = "POST"
       /\ http.URL req = "https://api.github.com/user/codespaces/my-cs_01/stop"
       /\ http.Body req = http.NoBody.
Proof.
  exact (proj2 (proj2 (proj2
           (plain_name_routes jsontext.codec
              (samples.transport (samples.grants "codespaces") samples.notFound)
              "tok" "my-cs_01" ltac:(discriminate) eq_refl)))).
Defined.

End path_facts.

(** ** A scope fetch that fails *)
Module fetch_facts.
Import strings strings_facts run_facts client_facts gate_facts handler_facts trace_facts ghmcp.

Section Fetch.
Context (json : Codec).
Variable client : github.CodespacesClient.

(** X13: whatever the action, when the scope fetch gets no answer, or an
    answer whose body cannot be read, or an answer of status 400 or more
    (as the upstream gives for a token it does not know), the caller gets
    500 with the message about validation, not the upstream status, and
    the fetch is the only upstream call. *)
Theorem failed_fetch_gives_500 (a : Action) (w : http.ResponseWriter)
    (r : http.Request) (calls : list http.Request) (token : string)
    (sreq : http.Request) :
  extractToken r = Done token -> token <> "" ->
  github.newRequest json client "GET" "/" token None = inr sreq ->
  match github.HTTPClient client calls sreq with
  | github.Responds status _ _ => 400 <= status
  | _ => True
  end ->
  perform json client a w r calls
  = (Done (http.Error w "failed to validate token scopes" 500), (calls ++ [sreq])%list).
Proof.
  intros Htok Hne Hreq Hex.
  pose proof (perform_trace json client a w r calls) as H.
  rewrite Htok in H. apply String.eqb_neq in Hne. rewrite Hne in H.
  destruct H as (sreq' & gate & Hreq' & Hgate & H).
  rewrite Hreq in Hreq'. injection Hreq' as <-.
  rewrite (ensureScopes_run json client token _ calls sreq Hreq) in Hgate.
  destruct (github.HTTPClient client calls sreq) as [e|status hdr e|status hdr body].
  - injection Hgate as <-. exact H.
  - injection Hgate as <-. exact H.
  - apply Z.geb_le in Hex. rewrite Hex in Hgate. injection Hgate as <-. exact H.
Qed.

End Fetch.

Lemma failed_fetch_gives_500_witness :
  let c := samples.upstream
             (github.Responds 401 ∅ "Bad credentials") samples.notFound in
  let r := samples.inbound "DELETE" "/api/codespaces/my-cs" "Bearer stale" http.NoBody in
  fst (perform jsontext.codec c (Delete "my-cs") http.NewRecorder r [])
  = Done (http.Error http.NewRecorder "failed to validate token scopes" 500).
Proof.
  intros c r.
  refine (f_equal fst
    (failed_fetch_gives_500 jsontext.codec c (Delete "my-cs") http.NewRecorder r []
       "stale" _ eq_refl _ eq_refl _)).
  - discriminate.
  - vm_compute. discriminate.
Defined.

End fetch_facts.
